(** * gatenlp.serialization.default: format dispatch, the msgpack document
      codec and the HTML markup loader

    A shallow embedding of [gatenlp/serialization/default.py] and the
    properties of it that the specification states.

    Conventions of the embedding.
    - A Python [str] is a [string]; one [ascii] stands for one character, so
      [len(s)] is [String.length s].
    - A Python [int] is a [Z]; the counters of the markup walk, which start
      at [0] and only grow, are [nat].
    - A raised exception is the [Raise] branch of [result]; code that runs
      to completion returns [Ok].
    - The collaborators that live outside this module ([json], [yaml],
      [gzip], [requests], the document class) are fields of the
      [Collaborators] class and are never unfolded.
    - What the module prints to standard output is left out. *)

From Stdlib Require Import ZArith String Ascii List Lia Bool.
From stdpp Require Import base option list gmap strings fin_maps.

Local Open Scope Z_scope.

(** ** Python exceptions and results *)

Inductive exn : Type :=
| Exception (msg : string)      (* [raise Exception(msg)] *)
| AssertionError
| AttributeError
| IndexError
| KeyError
| TypeError
| ValueError
| OutOfData                     (* msgpack: the unpacker ran out of input *)
| FileNotFoundError.

Inductive result (A : Type) : Type :=
| Ok (a : A)
| Raise (e : exn).
Arguments Ok {A} a.
Arguments Raise {A} e.

#[global] Instance result_ret : MRet result := fun A a => Ok a.
#[global] Instance result_bind : MBind result := fun A B f m =>
  match m with
  | Ok a => f a
  | Raise e => Raise e
  end.

Definition raises {A} (m : result A) : Prop :=
  match m with Ok _ => False | Raise _ => True end.

(** ** Strings the way Python slices and searches them *)

Definition nl : ascii := "010"%char.
Definition NL : string := String nl "".

Fixpoint str_take (n : nat) (s : string) : string :=
  match n, s with
  | S n', String a r => String a (str_take n' r)
  | _, _ => ""
  end.

Fixpoint str_drop (n : nat) (s : string) : string :=
  match n, s with
  | S n', String _ r => str_drop n' r
  | _, _ => s
  end.

(** [s.rfind(c)] for a one-character [c]: the last index of [c], or [-1]. *)
Fixpoint rfind (c : ascii) (s : string) : Z :=
  match s with
  | "" => -1
  | String a r =>
      let i := rfind c r in
      if 0 <=? i then i + 1 else if Ascii.eqb a c then 0 else -1
  end.

(** [s.endswith("\n")] *)
Fixpoint endswith_nl (s : string) : bool :=
  match s with
  | "" => false
  | String a "" => Ascii.eqb a nl
  | String _ r => endswith_nl r
  end.

(** The last character of [s], and whether it is one that neither starts an
    extension nor separates path components. *)
Fixpoint str_last (s : string) : option ascii :=
  match s with
  | "" => None
  | String a "" => Some a
  | String _ r => str_last r
  end.

Definition ends_in_name_char (s : string) : bool :=
  match str_last s with
  | Some a => negb (Ascii.eqb a ".") && negb (Ascii.eqb a "/")
  | None => false
  end.

(** [s.startswith(t)] *)
Fixpoint startswith (t s : string) : bool :=
  match t, s with
  | "", _ => true
  | String a t', String b s' => Ascii.eqb a b && startswith t' s'
  | String _ _, "" => false
  end.

(** ** [os.path.splitext] on POSIX

    The standard library's [genericpath._splitext] with [sep = "/"], no
    [altsep] and [extsep = "."]: the extension starts at the last dot of the
    last path component, and leading dots of that component do not count. *)

Fixpoint splitext_scan (p : string) (dotIndex filenameIndex : Z) (n : nat)
  : string * string :=
  match n with
  | O => (p, "")
  | S n' =>
      if filenameIndex <? dotIndex then
        if bool_decide (String.get (Z.to_nat filenameIndex) p ≠ Some "."%char)
        then (str_take (Z.to_nat dotIndex) p, str_drop (Z.to_nat dotIndex) p)
        else splitext_scan p dotIndex (filenameIndex + 1) n'
      else (p, "")
  end.

Definition splitext (p : string) : string * string :=
  let sepIndex := rfind "/"%char p in
  let dotIndex := rfind "."%char p in
  if sepIndex <? dotIndex
  then splitext_scan p dotIndex (sepIndex + 1) (Z.to_nat (dotIndex - sepIndex))
  else (p, "").

(** ** Primitive values

    What [msgpack] packs and unpacks, as Python objects.  Floating-point and
    extension values are left out of the model. *)

#[local] Set Warnings "-register-all".

Inductive value : Type :=
| VNone
| VBool (b : bool)
| VInt (n : Z)
| VStr (s : string)
| VBytes (b : list Byte.byte)
| VList (vs : list value)
| VMap (kvs : list (value * value)).

(** The objects a [for] loop or a tuple assignment gets out of [v], or [None]
    when [v] is not iterable. *)
Definition py_iter (v : value) : option (list value) :=
  match v with
  | VStr s => Some ((λ a, VStr (String a "")) <$> list_ascii_of_string s)
  | VBytes b => Some ((λ x, VInt (Z.of_N (Byte.to_N x))) <$> b)
  | VList vs => Some vs
  | VMap kvs => Some (fst <$> kvs)
  | VNone | VBool _ | VInt _ => None
  end.

(** [range(v)]: the number of iterations, for an [int] (or [bool]) [v]. *)
Definition py_range (v : value) : result nat :=
  match v with
  | VInt n => Ok (Z.to_nat n)
  | VBool b => Ok (if b then 1%nat else 0%nat)
  | _ => Raise TypeError
  end.

(** *** Dictionaries

    A [dict] keeps its entries in insertion order.  Keys are compared through
    their hash key: [True] and [1] are the same key, lists and dicts are not
    hashable. *)

Inductive key : Type :=
| KNone
| KInt (n : Z)
| KStr (s : string)
| KBytes (b : list Byte.byte).

#[global] Instance byte_eq_dec : EqDecision Byte.byte := Byte.byte_eq_dec.
#[global] Instance key_eq_dec : EqDecision key.
Proof. solve_decision. Defined.

Definition hash_key (v : value) : option key :=
  match v with
  | VNone => Some KNone
  | VBool b => Some (KInt (Z.b2z b))
  | VInt n => Some (KInt n)
  | VStr s => Some (KStr s)
  | VBytes b => Some (KBytes b)
  | VList _ | VMap _ => None
  end.

Definition pydict (A : Type) : Type := list (value * A).

(** [d[k] = x] for a hashable [k] with hash key [h]: an entry with an equal
    key keeps its place and its key object and gets the new value. *)
Fixpoint dict_store {A} (h : key) (k : value) (x : A) (d : pydict A) : pydict A :=
  match d with
  | [] => [(k, x)]
  | (k', x') :: d' =>
      if bool_decide (hash_key k' = Some h) then (k', x) :: d'
      else (k', x') :: dict_store h k x d'
  end.

(** [d[k] = x] *)
Definition dict_setitem {A} (d : pydict A) (k : value) (x : A) : result (pydict A) :=
  match hash_key k with
  | None => Raise TypeError
  | Some h => Ok (dict_store h k x d)
  end.

Fixpoint dict_find {A} (h : key) (d : pydict A) : option A :=
  match d with
  | [] => None
  | (k', x') :: d' =>
      if bool_decide (hash_key k' = Some h) then Some x' else dict_find h d'
  end.

(** [d.get(k)] *)
Definition dict_get {A} (d : pydict A) (k : value) : option A :=
  h ← hash_key k; dict_find h d.

(** ** The document classes

    Modelled from the spec: [Document], [AnnotationSet] and [Annotation] come
    from other modules of the package.  They are records of the attributes
    that the codec reads and assigns; an attribute holds whatever object was
    put there.  The document has one mapping from set name to set, which the
    codec reaches as [_annotation_sets] when writing and as
    [annotation_sets] when reading. *)

Record Annotation : Type := mkAnnotation {
  a_start : value;
  a_end : value;
  a_type : value;
  a_id : value;
  a_features : value;
}.

Record AnnotationSet : Type := mkAnnotationSet {
  s_name : value;
  s_next_annid : value;
  s_annotations : pydict Annotation;
}.

Record Document : Type := mkDocument {
  d_offset_type : value;
  d_text : value;
  d_features : value;
  d_annotation_sets : pydict AnnotationSet;
}.

(** ** [HtmlLoader]

    The tree that [BeautifulSoup] hands to [walktree]: strings
    ([NavigableString] is a [str]), tags with their name, attributes and
    children, and, for the last branch of [walktree], anything else. *)

Inductive node : Type :=
| NavigableString (s : string)
| Tag (name : string) (attrs : value) (children : list node)
| OtherNode.

(** The dicts appended to [docinfo["anninfos"]].  A start dict has no
    ["end"] entry until the pairing loop assigns one. *)
Inductive anninfo : Type :=
| StartInfo (type : string) (features : value) (id : nat) (start : nat)
            (end_ : option nat)
| EndInfo (id : nat) (end_ : nat).

Record docinfo : Type := mkDocinfo {
  anninfos : list anninfo;
  curoffset : nat;
  curid : nat;
  text : string;
}.

(** What the loader builds: [Document(docinfo["text"])] and, in call order,
    the arguments of each [annset.add] on its set ["Original markups"]. *)
Record added : Type := mkAdded {
  add_start : nat;
  add_end : nat;
  add_anntype : string;
  add_features : value;
}.

Record markup_document : Type := mkMarkupDocument {
  md_text : string;
  md_added : list added;
}.

(** ** What callers pass in and get back *)

(** An external resource: a [str], a [pathlib] path (an [os.PathLike], here
    with its [os.fspath]) or a parsed URL.  [None] is the [None] of
    [option]. *)
Inductive filespec : Type :=
| FsStr (s : string)
| FsPath (s : string)
| FsParseResult (url : string).

(** An in-memory source: a [str] or a [bytes] object. *)
Inductive buffer : Type :=
| BufStr (s : string)
| BufBytes (b : list Byte.byte).

(** [if from_mem:] *)
Definition buffer_truthy (m : option buffer) : bool :=
  match m with
  | None | Some (BufStr "") | Some (BufBytes []) => false
  | Some _ => true
  end.

(** [from_mem[0]]: a one-character [str], or the [int] of the first byte. *)
Definition buffer_first (m : option buffer) : result value :=
  match m with
  | None => Raise TypeError
  | Some (BufStr "") | Some (BufBytes []) => Raise IndexError
  | Some (BufStr (String a _)) => Ok (VStr (String a ""))
  | Some (BufBytes (x :: _)) => Ok (VInt (Z.of_N (Byte.to_N x)))
  end.

(** The class asked for, and the object saved or loaded. *)
Inductive clazz : Type := ClsDocument | ClsChangeLog | ClsOther.

Inductive instance : Type :=
| IDocument (doc : Document)
| IChangeLog (log : value)
| IOther.

(** What a saver leaves in the file system. *)
Inductive effect : Type :=
| WriteText (path : string) (content : string)       (* [open(path, "wt")] *)
| WriteGzipText (path : string) (content : string)   (* [gzip.open(path, "wt")] *)
| WriteBytes (path : string) (content : list Byte.byte).

(** A file opened for reading text: its content and the read position. *)
Record textfile : Type := mkTextfile {
  tf_content : string;
  tf_pos : nat;
}.

Definition tf_open (content : string) : textfile := mkTextfile content 0.

(** [infp.read(n)] *)
Definition tf_read (n : nat) (f : textfile) : string * textfile :=
  let got := str_take n (str_drop (tf_pos f) (tf_content f)) in
  (got, mkTextfile (tf_content f) (tf_pos f + String.length got)).

(** [infp.read()] *)
Definition tf_read_all (f : textfile) : string * textfile :=
  let got := str_drop (tf_pos f) (tf_content f) in
  (got, mkTextfile (tf_content f) (tf_pos f + String.length got)).

(** The path that [open] is given. *)
Definition open_arg (ext : option filespec) : result string :=
  match ext with
  | Some (FsStr p) | Some (FsPath p) => Ok p
  | Some (FsParseResult _) | None => Raise TypeError
  end.

(** ** Collaborators

    The libraries and classes this module calls but does not define.  A file
    is what reading it to the end returns; failures while writing are not
    modelled. *)
Class Collaborators : Type := {
  (* [requests.get(url)], then [.text] under an encoding, or [.content] *)
  requests_text : filespec → option string → result string;
  requests_content : filespec → result (list Byte.byte);
  (* [open(path, "rt")], [open(path, "rb")], [gzip.open(path, "rt")] *)
  open_rt : string → result string;
  open_rb : string → result (list Byte.byte);
  gopen_rt : string → result string;
  (* [json.dumps], [json.loads] *)
  json_dumps : value → string;
  json_loads : buffer → result value;
  (* [gzip.compress], [gzip.decompress], [str.encode], [bytes.decode] *)
  compress : list Byte.byte → list Byte.byte;
  decompress : buffer → result (list Byte.byte);
  encode_utf8 : string → list Byte.byte;
  decode_utf8 : list Byte.byte → result string;
  (* [inst.to_dict(offset_type=...)], [clazz.from_dict(d)] *)
  to_dict : instance → option string → value;
  from_dict : clazz → value → result instance;
  (* the values that a msgpack [Unpacker] finds in bytes, and the bytes that
     [pack] writes for values *)
  msgpack_values : list Byte.byte → list value;
  msgpack_bytes : list value → list Byte.byte;
  (* [BeautifulSoup(markup)] *)
  BeautifulSoup : option buffer → node;
}.

Section Module_functions.
Context `{Collaborators}.

Definition is_url (ext : filespec) : bool :=
match ext with
| FsStr s => if startswith "http://" s || startswith "https://" s then true else false
| FsPath _ => false
| FsParseResult _ => true
end.

Definition get_str_from_url (url : filespec) (encoding : option string) : result string :=
requests_text url encoding.

Definition get_bytes_from_url (url : filespec) : result (list Byte.byte) :=
requests_content url.

End Module_functions.

(** ** [JsonSerializer] *)

Module JsonSerializer.
Section With_collaborators.
Context `{Collaborators}.

(** Returns the returned object and the files written. *)
Definition save (cls : clazz) (inst : instance) (to_ext : option filespec)
    (to_mem : bool) (offset_type : option string) (gzip : bool)
  : result (value * list effect) :=
  let d := to_dict inst offset_type in
  if to_mem then
    if gzip then
      let _ := compress (encode_utf8 (json_dumps d)) in
      Ok (VNone, [])
    else Ok (VStr (json_dumps d), [])
  else
    if gzip then
      p ← open_arg to_ext;
      Ok (VNone, [WriteGzipText p (json_dumps d)])
    else
      p ← open_arg to_ext;
      Ok (VNone, [WriteText p (json_dumps d)]).

Definition save_gzip (cls : clazz) (inst : instance) (to_ext : option filespec)
    (to_mem : bool) (offset_type : option string) : result (value * list effect) :=
  '(_, written) ← save cls inst to_ext to_mem offset_type true;
  Ok (VNone, written).

Definition load (cls : clazz) (from_ext : option filespec)
    (from_mem : option buffer) (gzip : bool) : result instance :=
  from_mem ←
    match from_ext with
    | Some ext =>
        if is_url ext then
          if gzip then b ← get_bytes_from_url ext; Ok (Some (BufBytes b))
          else s ← get_str_from_url ext (Some "utf-8"); Ok (Some (BufStr s))
        else Ok from_mem
    | None => Ok from_mem
    end;
  if buffer_truthy from_mem then
    d ← (if gzip then
           b ← decompress (default (BufStr "") from_mem);
           s ← decode_utf8 b;
           json_loads (BufStr s)
         else json_loads (default (BufStr "") from_mem));
    from_dict cls d
  else
    d ← (if gzip then
           p ← open_arg from_ext;
           s ← gopen_rt p;
           json_loads (BufStr (fst (tf_read_all (tf_open s))))
         else
           p ← open_arg from_ext;
           s ← open_rt p;
           json_loads (BufStr (fst (tf_read_all (tf_open s)))));
    from_dict cls d.

Definition load_gzip (cls : clazz) (from_ext : option filespec)
    (from_mem : option buffer) : result instance :=
  load cls from_ext from_mem true.

End With_collaborators.
End JsonSerializer.

(** ** [MsgPackSerializer] *)

Definition MSGPACK_VERSION_HDR : string := "sm1".

(** A stream is the sequence of values packed into it so far; an [Unpacker]
    is the sequence of values still to be read. *)
Definition stream : Type := list value.

(** [pack(v, stream)] *)
Definition pack (v : value) (s : stream) : stream := s ++ [v].

(** [u.unpack()] *)
Definition unpack (u : stream) : result (value * stream) :=
  match u with
  | [] => Raise OutOfData
  | v :: u' => Ok (v, u')
  end.

(** What the loop variables of [document2stream] can be bound to. *)
Inductive pyobj : Type :=
| ObjValue (v : value)
| ObjAnnotationSet (s : AnnotationSet).

(** [name, annset = k] *)
Definition unpack_pair (k : value) : result (value * pyobj) :=
  match py_iter k with
  | None => Raise TypeError
  | Some [name; annset] => Ok (name, ObjValue annset)
  | Some _ => Raise ValueError
  end.

(** [annset.next_annid] *)
Definition get_next_annid (o : pyobj) : result value :=
  match o with
  | ObjAnnotationSet s => Ok (s_next_annid s)
  | ObjValue _ => Raise AttributeError
  end.

(** [annset.fast_iter()], whose length is [len(annset)] *)
Definition fast_iter (o : pyobj) : result (list Annotation) :=
  match o with
  | ObjAnnotationSet s => Ok (snd <$> s_annotations s)
  | ObjValue _ => Raise AttributeError
  end.

Definition pack_annotation (s : stream) (ann : Annotation) : stream :=
  let s := pack (a_type ann) s in
  let s := pack (a_start ann) s in
  let s := pack (a_end ann) s in
  let s := pack (a_id ann) s in
  pack (a_features ann) s.

(** [if sname is None: sname = ""] *)
Definition none_to_empty (sname : value) : value :=
  match sname with
  | VNone => VStr ""
  | _ => sname
  end.

Module MsgPackSerializer.

(** The body of [for name, annset in doc._annotation_sets:], run for the
    objects [items] that iterating the mapping yields. *)
Fixpoint pack_sets (items : list value) (s : stream) : result stream :=
  match items with
  | [] => Ok s
  | item :: items' =>
      '(name, annset) ← unpack_pair item;
      let s := pack name s in
      next_annid ← get_next_annid annset;
      let s := pack next_annid s in
      anns ← fast_iter annset;
      let s := pack (VInt (Z.of_nat (length anns))) s in
      let s := fold_left pack_annotation anns s in
      pack_sets items' s
  end.

(** Iterating a [dict] yields its keys.  The values written before an
    exception are dropped with the stream. *)
Definition document2stream (doc : Document) (s : stream) : result stream :=
  let s := pack (VStr MSGPACK_VERSION_HDR) s in
  let s := pack (d_offset_type doc) s in
  let s := pack (d_text doc) s in
  let s := pack (d_features doc) s in
  let s := pack (VInt (Z.of_nat (length (d_annotation_sets doc)))) s in
  pack_sets (fst <$> d_annotation_sets doc) s.

(** [for iann in range(nanns):] *)
Fixpoint read_annotations (nanns : nat) (u : stream) (anns : pydict Annotation)
  : result (pydict Annotation * stream) :=
  match nanns with
  | O => Ok (anns, u)
  | S n =>
      '(atype, u) ← unpack u;
      '(astart, u) ← unpack u;
      '(aend, u) ← unpack u;
      '(aid, u) ← unpack u;
      '(afeatures, u) ← unpack u;
      let ann := mkAnnotation astart aend atype aid afeatures in
      anns ← dict_setitem anns aid ann;
      read_annotations n u anns
  end.

(** [for iset in range(nsets):] *)
Fixpoint read_sets (nsets : nat) (u : stream) (setsdict : pydict AnnotationSet)
  : result (pydict AnnotationSet * stream) :=
  match nsets with
  | O => Ok (setsdict, u)
  | S n =>
      '(sname, u) ← unpack u;
      let sname := none_to_empty sname in
      '(next_annid, u) ← unpack u;
      '(nanns, u) ← unpack u;
      nanns ← py_range nanns;
      '(anns, u) ← read_annotations nanns u [];
      let annset := mkAnnotationSet sname next_annid anns in
      setsdict ← dict_setitem setsdict sname annset;
      read_sets n u setsdict
  end.

Definition stream2document (u : stream) : result Document :=
  '(version, u) ← unpack u;
  if negb (match version with
           | VStr s => bool_decide (s = MSGPACK_VERSION_HDR)
           | _ => false
           end)
  then Raise (Exception "MsgPack data starts with wrong version")
  else
    '(offset_type, u) ← unpack u;
    '(text, u) ← unpack u;
    '(features, u) ← unpack u;
    '(nsets, u) ← unpack u;
    nsets ← py_range nsets;
    '(setsdict, u) ← read_sets nsets u [];
    Ok (mkDocument offset_type text features setsdict).


Section With_collaborators.
Context `{Collaborators}.

(** Returns the returned object and the files written; what reached the
    file before an exception is not modelled. *)
Definition save (cls : clazz) (inst : instance) (to_ext : option filespec)
    (to_mem : bool) : result (value * list effect) :=
  writer ← match inst with
           | IDocument doc => Ok (document2stream doc)
           | IChangeLog _ => Raise (Exception "Not implemented yet")
           | IOther => Raise (Exception "Object not supported")
           end;
  if to_mem then
    s ← writer [];
    Ok (VBytes (msgpack_bytes s), [])
  else
    p ← open_arg to_ext;
    s ← writer [];
    Ok (VNone, [WriteBytes p (msgpack_bytes s)]).

Definition load (cls : clazz) (from_ext : option filespec)
    (from_mem : option buffer) : result instance :=
  reader ← match cls with
           | ClsDocument => Ok stream2document
           | ClsChangeLog => Raise (Exception "Not implemented yet")
           | ClsOther => Raise (Exception "Object not supported")
           end;
  from_mem ←
    match from_ext with
    | Some ext =>
        if is_url ext then b ← get_bytes_from_url ext; Ok (Some (BufBytes b))
        else Ok from_mem
    | None => Ok from_mem
    end;
  f ← (if buffer_truthy from_mem then
         match from_mem with
         | Some (BufBytes b) => Ok b
         | _ => Raise TypeError
         end
       else
         p ← open_arg from_ext;
         open_rb p);
  doc ← reader (msgpack_values f);
  Ok (IDocument doc).

End With_collaborators.

End MsgPackSerializer.

Module HtmlLoader.

Definition nlels : gset string := list_to_set [
  "pre"; "br"; "p"; "div"; "tr"; "h1"; "h2"; "h3"; "h4"; "h5"; "h6"; "li";
  "address"; "article"; "aside"; "blockquote"; "del"; "figure"; "figcaption";
  "footer"; "header"; "hr"; "ins"; "main"; "nav"; "section"; "summary"; "input"; "legend";
  "option"; "textarea"; "bdi"; "bdo"; "center"; "code"; "dfn"; "menu"; "dir"; "caption"
].

Definition docinfo0 : docinfo := mkDocinfo [] 0 0 "".

(** The statement that [walktree] runs before opening a tag and again
    before closing it:
    [if not docinfo["text"].endswith("\n") and el.name in nlels: ...] *)
Definition newline_for (name : string) (d : docinfo) : docinfo :=
  if negb (endswith_nl (text d)) && bool_decide (name ∈ nlels)
  then mkDocinfo (anninfos d) (curoffset d + 1) (curid d) (text d +:+ NL)
  else d.

Fixpoint walktree (el : node) (d : docinfo) : docinfo :=
  match el with
  | NavigableString s =>
      mkDocinfo (anninfos d) (curoffset d + String.length s) (curid d)
                (text d +:+ s)
  | Tag name attrs children =>
      let d := newline_for name d in
      let ann := StartInfo name attrs (curid d) (curoffset d) None in
      let thisid := curid d in
      let d := mkDocinfo (anninfos d ++ [ann]) (curoffset d) (curid d + 1) (text d) in
      let d := fold_left (λ d child, walktree child d) children d in
      let d := newline_for name d in
      mkDocinfo (anninfos d ++ [EndInfo thisid (curoffset d)])
                (curoffset d) (curid d) (text d)
  | OtherNode => d
  end.

(** [anninfo["end"] = end] *)
Definition set_end (a : anninfo) (e : nat) : anninfo :=
  match a with
  | StartInfo t f i s _ => StartInfo t f i s (Some e)
  | EndInfo i _ => EndInfo i e
  end.

(** The first pairing loop: count the start dicts and index them by id. *)
Fixpoint index_starts (evs : list anninfo) (nstart : nat)
    (id2anninfo : gmap nat anninfo) : nat * gmap nat anninfo :=
  match evs with
  | [] => (nstart, id2anninfo)
  | StartInfo t f i s e :: evs' =>
      index_starts evs' (nstart + 1) (<[i := StartInfo t f i s e]> id2anninfo)
  | EndInfo _ _ :: evs' => index_starts evs' nstart id2anninfo
  end.

(** The second loop: count the end dicts and store each end offset in the
    start dict of the same id.  The start dicts are shared with the event
    list, but the loop reads nothing from the list that it assigns. *)
Fixpoint assign_ends (evs : list anninfo) (nend : nat)
    (id2anninfo : gmap nat anninfo) : result (nat * gmap nat anninfo) :=
  match evs with
  | [] => Ok (nend, id2anninfo)
  | EndInfo annid e :: evs' =>
      match id2anninfo !! annid with
      | None => Raise KeyError
      | Some a => assign_ends evs' (nend + 1) (<[annid := set_end a e]> id2anninfo)
      end
  | StartInfo _ _ _ _ _ :: evs' => assign_ends evs' nend id2anninfo
  end.

(** The body of [for i in range(nstart):] *)
Definition add_one (id2anninfo : gmap nat anninfo) (i : nat) : result added :=
  match id2anninfo !! i with
  | Some (StartInfo t f _ s (Some e)) => Ok (mkAdded s e t f)
  | _ => Raise KeyError
  end.

(** What [load] does with [docinfo] once the tree is walked: pair the
    events, check the counts, build the document. *)
Definition pair_events (d : docinfo) : result markup_document :=
  let '(nstart, id2anninfo) := index_starts (anninfos d) 0 ∅ in
  '(nend, id2anninfo) ← assign_ends (anninfos d) 0 id2anninfo;
  if bool_decide (nstart = nend) then
    anns ← mapM (add_one id2anninfo) (seq 0 nstart);
    Ok (mkMarkupDocument (text d) anns)
  else Raise AssertionError.

(** [load] from the parsed tree [bs] on. *)
Definition load_tree (bs : node) : result markup_document :=
  pair_events (walktree bs docinfo0).

Section With_collaborators.
Context `{Collaborators}.

Definition load (cls : clazz) (from_ext : option filespec)
    (from_mem : option buffer) : result markup_document :=
  from_mem ←
    match from_ext with
    | Some ext =>
        if is_url ext then s ← get_str_from_url ext None; Ok (Some (BufStr s))
        else Ok from_mem
    | None => Ok from_mem
    end;
  let bs :=
    if buffer_truthy from_mem then BeautifulSoup from_mem
    else BeautifulSoup (match from_ext with
                        | Some (FsStr s) | Some (FsPath s)
                        | Some (FsParseResult s) => Some (BufStr s)
                        | None => None
                        end) in
  load_tree bs.

End With_collaborators.
End HtmlLoader.


(** ** [determine_loader] *)

Section Determine_loader.
Context `{Collaborators}.

Definition determine_loader (cls : clazz) (from_ext : option filespec)
    (from_mem : option buffer) (gzip : bool) : result instance :=
  first ←
    (if buffer_truthy from_mem then buffer_first from_mem
     else
       p ← open_arg from_ext;
       content ← open_rt p;
       Ok (VStr (fst (tf_read 1 (tf_open content)))));
  if match first with VStr s => bool_decide (s = "{") | _ => false end
  then JsonSerializer.load cls from_ext from_mem gzip
  else MsgPackSerializer.load cls from_ext from_mem.

End Determine_loader.

(** ** The handler tables *)

(** The function objects stored in the tables. *)
Inductive handler : Type :=
| JsonSerializer_save | JsonSerializer_save_gzip
| JsonSerializer_load | JsonSerializer_load_gzip
| YamlSerializer_save | YamlSerializer_save_gzip
| YamlSerializer_load | YamlSerializer_load_gzip
| MsgPackSerializer_save | MsgPackSerializer_load
| HtmlAnnViewerSerializer_save
| HtmlLoader_load
| GateXmlLoader_load
| determine_loader_fn.

#[global] Instance handler_eq_dec : EqDecision handler.
Proof. solve_decision. Defined.

Definition DOCUMENT_SAVERS : gmap string handler := list_to_map [
  ("json", JsonSerializer_save);
  ("jsongz", JsonSerializer_save_gzip);
  ("yaml", YamlSerializer_save);
  ("text/bdocym", YamlSerializer_save);
  ("text/bdocym+gzip+", YamlSerializer_save);
  ("text/bdocjs", JsonSerializer_save);
  ("text/bdocjs+gzip", JsonSerializer_save_gzip);
  ("msgpack", MsgPackSerializer_save);
  ("application/msgpack", MsgPackSerializer_save);
  ("html-ann-viewer", HtmlAnnViewerSerializer_save)
].

Definition DOCUMENT_LOADERS : gmap string handler := list_to_map [
  ("json", JsonSerializer_load);
  ("yaml", YamlSerializer_load);
  ("text/bdocym", YamlSerializer_load);
  ("text/bdocym+gzip", YamlSerializer_load_gzip);
  ("jsongz", JsonSerializer_load_gzip);
  ("yamlgz", YamlSerializer_load_gzip);
  ("jsonormsgpack", determine_loader_fn);
  ("text/bdocjs", JsonSerializer_load);
  ("text/bdocjs+gzip", JsonSerializer_load_gzip);
  ("msgpack", MsgPackSerializer_load);
  ("application/msgpack", MsgPackSerializer_load);
  ("text/html", HtmlLoader_load);
  ("html", HtmlLoader_load);
  ("gatexml", GateXmlLoader_load)
].

Definition CHANGELOG_SAVERS : gmap string handler := list_to_map [
  ("json", JsonSerializer_save);
  ("text/bdocjs+gzip", JsonSerializer_save_gzip);
  ("text/bdocjs", JsonSerializer_save)
].

Definition CHANGELOG_LOADERS : gmap string handler := list_to_map [
  ("json", JsonSerializer_load);
  ("text/bdocjs+gzip", JsonSerializer_load_gzip);
  ("text/bdocjs", JsonSerializer_load)
].

(** map extensions to document types *)
Definition EXTENSIONS : gmap string string := list_to_map [
  ("bdocjs", "json");
  ("bdocym", "yaml");
  ("bdocym.gz", "text/bdocym+gzip");
  ("bdoc.gz", "text/bdocjs+gzip");
  ("bdoc", "jsonormsgpack");
  ("bdocjs.gz", "text/bdocjs+gzip");
  ("bdocjson", "json");
  ("bdocmp", "msgpack")
].

(** ** [get_handler] *)

(** [not filespec] *)
Definition filespec_falsy (f : option filespec) : bool :=
  match f with
  | None => true
  | Some (FsStr s) => bool_decide (s = "")
  | Some (FsPath _) => false
  | Some (FsParseResult _) => false
  end.

(** [if fmt:] for a format that is [None] or a [str] *)
Definition fmt_truthy (fmt : option string) : bool :=
  match fmt with
  | Some s => negb (bool_decide (s = ""))
  | None => false
  end.

(** How an f-string prints a value that is [None] or a [str]. *)
Definition fstr (o : option string) : string := default "None" o.

(** The extension key that [get_handler] looks up for the path [wf]. *)
Definition extension_key (wf : string) : string :=
  let '(name, ext) := splitext wf in
  if bool_decide (ext = ".gz") then
    let ext2 := snd (splitext name) in
    let ext2 := if bool_decide (ext2 = "") then ext2 else str_drop 1 ext2 in
    ext2 +:+ ext
  else if bool_decide (ext = "") then ext
  else str_drop 1 ext.

Definition get_handler (filespec : option filespec) (fmt : option string)
    (handlers : gmap string handler) (saveload what : string) : result handler :=
  let msg := "Could not determine how to " +:+ saveload +:+ " " +:+ what +:+
             " for format " +:+ fstr fmt +:+
             " in module gatenlp.serialization.default" in
  if fmt_truthy fmt then
    match handlers !! default "" fmt with
    | None => Raise (Exception msg)
    | Some handler => Ok handler
    end
  else
    if filespec_falsy filespec then Raise (Exception msg)
    else
      wf ← match filespec with
           | Some (FsPath s) => Ok s
           | Some (FsStr s) => Ok s
           | _ => Raise (Exception msg)
           end;
      let ext := extension_key wf in
      let fmt := EXTENSIONS !! ext in
      let msg := "Could not determine how to " +:+ saveload +:+ " " +:+ what +:+
                 " for format " +:+ fstr fmt +:+ " and with extension " +:+ ext +:+
                 " in module gatenlp.serialization.default" in
      if fmt_truthy fmt then
        match handlers !! default "" fmt with
        | None => Raise (Exception msg)
        | Some handler => Ok handler
        end
      else Raise (Exception msg).

Definition get_document_saver (filespec : option filespec) (fmt : option string) :=
  get_handler filespec fmt DOCUMENT_SAVERS "save" "document".

Definition get_document_loader (filespec : option filespec) (fmt : option string) :=
  get_handler filespec fmt DOCUMENT_LOADERS "load" "document".

Definition get_changelog_saver (filespec : option filespec) (fmt : option string) :=
  get_handler filespec fmt CHANGELOG_SAVERS "save" "changelog".

Definition get_changelog_loader (filespec : option filespec) (fmt : option string) :=
  get_handler filespec fmt CHANGELOG_LOADERS "load" "changelog".


(** ** [YamlSerializer] *)

Module YamlSerializer.
Section With_collaborators.
Context `{Collaborators}.

(** [yaml.dump(d)] and [yaml.load(s, Loader=yaml.FullLoader)] *)
Variable yaml_dump : value → string.
Variable yaml_load : buffer → result value.

(** Returns the returned object and the files written. *)
Definition save (cls : clazz) (inst : instance) (to_ext : option filespec)
    (to_mem : bool) (offset_type : option string) (gzip : bool)
  : result (value * list effect) :=
  let d := to_dict inst offset_type in
  if to_mem then
    if gzip then
      let _ := compress (encode_utf8 (yaml_dump d)) in
      Ok (VNone, [])
    else Ok (VStr (yaml_dump d), [])
  else
    if gzip then
      p ← open_arg to_ext;
      Ok (VNone, [WriteGzipText p (yaml_dump d)])
    else
      p ← open_arg to_ext;
      Ok (VNone, [WriteText p (yaml_dump d)]).

Definition save_gzip (cls : clazz) (inst : instance) (to_ext : option filespec)
    (to_mem : bool) (offset_type : option string) : result (value * list effect) :=
  '(_, written) ← save cls inst to_ext to_mem offset_type true;
  Ok (VNone, written).

Definition load (cls : clazz) (from_ext : option filespec)
    (from_mem : option buffer) (gzip : bool) : result instance :=
  from_mem ←
    match from_ext with
    | Some ext =>
        if is_url ext then
          if gzip then b ← get_bytes_from_url ext; Ok (Some (BufBytes b))
          else s ← get_str_from_url ext (Some "utf-8"); Ok (Some (BufStr s))
        else Ok from_mem
    | None => Ok from_mem
    end;
  if buffer_truthy from_mem then
    d ← (if gzip then
           b ← decompress (default (BufStr "") from_mem);
           s ← decode_utf8 b;
           yaml_load (BufStr s)
         else yaml_load (default (BufStr "") from_mem));
    from_dict cls d
  else
    d ← (if gzip then
           p ← open_arg from_ext;
           s ← gopen_rt p;
           yaml_load (BufStr (fst (tf_read_all (tf_open s))))
         else
           p ← open_arg from_ext;
           s ← open_rt p;
           yaml_load (BufStr (fst (tf_read_all (tf_open s)))));
    from_dict cls d.

Definition load_gzip (cls : clazz) (from_ext : option filespec)
    (from_mem : option buffer) : result instance :=
  load cls from_ext from_mem true.

End With_collaborators.
End YamlSerializer.

(** ** [GateXmlLoader]

    An [xml.etree.ElementTree] element: its tag, its attributes, the text
    before its first child, its children, and the text after it. *)

Inductive element : Type :=
| Element (tag : string) (attrib : gmap string string) (text : option string)
          (children : list element) (tail : option string).

Definition el_tag (el : element) : string :=
  match el with Element tag _ _ _ _ => tag end.
Definition el_attrib (el : element) : gmap string string :=
  match el with Element _ attrib _ _ _ => attrib end.
Definition el_text (el : element) : option string :=
  match el with Element _ _ text _ _ => text end.
Definition el_children (el : element) : list element :=
  match el with Element _ _ _ children _ => children end.
Definition el_tail (el : element) : option string :=
  match el with Element _ _ _ _ tail => tail end.

(** [el.findall("./tag")] and [el.findall("./tag1/tag2")] *)
Definition findall (tag : string) (el : element) : list element :=
  filter (λ c, el_tag c = tag) (el_children el).

Definition findall2 (tag1 tag2 : string) (el : element) : list element :=
  flat_map (findall tag2) (findall tag1 el).

(** [if s:] for a value that is [None] or a [str] *)
Definition str_truthy (s : option string) : bool :=
  match s with
  | None | Some "" => false
  | Some _ => true
  end.

(** [attrib[k]] *)
Definition attrib_getitem (attrib : gmap string string) (k : string) : result string :=
  match attrib !! k with
  | Some v => Ok v
  | None => Raise KeyError
  end.

(** The dicts that the loader builds for an annotation, for an annotation
    set and for the document. *)
Record xml_annotation : Type := mkXmlAnnotation {
  xa_id : Z;
  xa_type : string;
  xa_start : nat;
  xa_end : nat;
  xa_features : option (pydict value);
}.

Record xml_annset : Type := mkXmlAnnset {
  xs_name : string;
  xs_annotations : list xml_annotation;
  xs_next_annid : Z;
}.

Record docmap : Type := mkDocmap {
  dm_text : string;
  dm_features : pydict value;
  dm_offset_type : string;
  dm_annotation_sets : pydict xml_annset;
}.

Module GateXmlLoader.
Section With_collaborators.
Context `{Collaborators}.

(** [int(s)] and [float(s)] for a [str]; [ET.fromstring], [ET.parse] with
    [getroot]; [Document.from_dict] for the dict of the loader.  Floats are
    not modelled: [float] returns the object. *)
Variable py_int : string → result Z.
Variable py_float : string → result value.
Variable ET_fromstring : string → result element.
Variable ET_parse : option filespec → result element.
Variable Document_from_dict : docmap → result Document.

Variable ignore_unknown_types : bool.

(** [int(el.text)] and [float(el.text)], where [el.text] can be [None] *)
Definition int_of_text (text : option string) : result value :=
  match text with
  | None => Raise TypeError
  | Some s => n ← py_int s; Ok (VInt n)
  end.

Definition float_of_text (text : option string) : result value :=
  match text with
  | None => Raise TypeError
  | Some s => py_float s
  end.

(** ["..." + el.get("className")] as the message of an exception *)
Definition odd_type (msg : string) (className : option string) : exn :=
  match className with
  | Some c => Exception (msg +:+ c)
  | None => TypeError
  end.

(** The body of [for el in list(feat):] *)
Definition feature_child (nv : option string * option value) (el : element)
  : result (option string * option value) :=
  let '(name, value) := nv in
  if bool_decide (el_tag el = "Name") then
    if bool_decide (el_attrib el !! "className" = Some "java.lang.String")
    then Ok (el_text el, value)
    else Raise (odd_type "Odd Feature Name type: " (el_attrib el !! "className"))
  else if bool_decide (el_tag el = "Value") then
    let cls_name := el_attrib el !! "className" in
    if bool_decide (cls_name = Some "java.lang.String")
    then Ok (name, VStr <$> el_text el)
    else if bool_decide (cls_name = Some "java.lang.Integer")
    then v ← int_of_text (el_text el); Ok (name, Some v)
    else if bool_decide (cls_name = Some "java.lang.Long")
    then v ← int_of_text (el_text el); Ok (name, Some v)
    else if bool_decide (cls_name = Some "java.math.BigDecimal")
    then v ← float_of_text (el_text el); Ok (name, Some v)
    else if bool_decide (cls_name = Some "java.lang.Boolean")
    then Ok (name, Some (VBool (str_truthy (el_text el))))
    else if ignore_unknown_types then Ok (name, value)
    else Raise (odd_type "Odd Feature Value type: " cls_name)
  else Ok (name, value).

Fixpoint feature_children (els : list element) (nv : option string * option value)
  : result (option string * option value) :=
  match els with
  | [] => Ok nv
  | el :: els' => nv ← feature_child nv el; feature_children els' nv
  end.

Fixpoint parsefeatures_loop (feats : list element) (features : pydict value)
  : result (pydict value) :=
  match feats with
  | [] => Ok features
  | feat :: feats' =>
      '(name, value) ← feature_children (el_children feat) (None, None);
      let features :=
        match name, value with
        | Some name, Some value => dict_store (KStr name) (VStr name) value features
        | _, _ => features
        end in
      parsefeatures_loop feats' features
  end.

Definition parsefeatures (feats : list element) : result (pydict value) :=
  parsefeatures_loop feats [].

(** The state of the loop over the text: the text, the offsets of the nodes
    by id, and the running offset. *)
Record textstate : Type := mkTextstate {
  ts_text : string;
  ts_node2offset : gmap (option string) nat;
  ts_curoff : nat;
}.

(** The body of [for node in item:] *)
Definition text_node (st : textstate) (node : element) : textstate :=
  let nodeid := el_attrib node !! "id" in
  let node2offset := <[nodeid := ts_curoff st]> (ts_node2offset st) in
  if str_truthy (el_tail node) then
    let tail := default "" (el_tail node) in
    mkTextstate (ts_text st +:+ tail) node2offset
                (ts_curoff st + String.length tail)
  else mkTextstate (ts_text st) node2offset (ts_curoff st).

(** The body of [for item in textwithnodes:] *)
Definition text_item (st : textstate) (item : element) : textstate :=
  let st :=
    if str_truthy (el_text item) then
      let text := default "" (el_text item) in
      mkTextstate (ts_text st +:+ text) (ts_node2offset st)
                  (ts_curoff st + String.length text)
    else st in
  fold_left text_node (el_children item) st.

(** The body of [for ann in annots:] *)
Definition annotation_of (node2offset : gmap (option string) nat)
    (acc : list xml_annotation * Z) (ann : element)
  : result (list xml_annotation * Z) :=
  let '(annotations, maxannid) := acc in
  idtext ← attrib_getitem (el_attrib ann) "Id";
  annid ← py_int idtext;
  let maxannid := Z.max maxannid annid in
  anntype ← attrib_getitem (el_attrib ann) "Type";
  startnode ← attrib_getitem (el_attrib ann) "StartNode";
  endnode ← attrib_getitem (el_attrib ann) "EndNode";
  startoff ← match node2offset !! Some startnode with
             | Some o => Ok o
             | None => Raise KeyError
             end;
  endoff ← match node2offset !! Some endnode with
           | Some o => Ok o
           | None => Raise KeyError
           end;
  features ← parsefeatures (findall "Feature" ann);
  let features := if bool_decide (length features = 0%nat) then None
                  else Some features in
  Ok (annotations ++ [mkXmlAnnotation annid anntype startoff endoff features],
      maxannid).

Fixpoint annotations_of (node2offset : gmap (option string) nat)
    (annots : list element) (acc : list xml_annotation * Z)
  : result (list xml_annotation * Z) :=
  match annots with
  | [] => Ok acc
  | ann :: annots' =>
      acc ← annotation_of node2offset acc ann;
      annotations_of node2offset annots' acc
  end.

(** The body of [for annset in annsets:] *)
Definition annset_of (node2offset : gmap (option string) nat)
    (annotation_sets : pydict xml_annset) (annset : element)
  : result (pydict xml_annset) :=
  let setname :=
    if str_truthy (el_attrib annset !! "Name")
    then default "" (el_attrib annset !! "Name") else "" in
  '(annotations, maxannid) ←
    annotations_of node2offset (findall "Annotation" annset) ([], 0);
  let annset := mkXmlAnnset setname annotations (maxannid + 1) in
  Ok (dict_store (KStr setname) (VStr setname) annset annotation_sets).

Fixpoint annsets_of (node2offset : gmap (option string) nat)
    (annsets : list element) (annotation_sets : pydict xml_annset)
  : result (pydict xml_annset) :=
  match annsets with
  | [] => Ok annotation_sets
  | annset :: annsets' =>
      annotation_sets ← annset_of node2offset annotation_sets annset;
      annsets_of node2offset annsets' annotation_sets
  end.

(** [load] from the root element on: the dict handed to
    [Document.from_dict]. *)
Definition docmap_of (root : element) : result docmap :=
  if negb (bool_decide (el_tag root = "GateDocument")) then Raise AssertionError
  else if negb (bool_decide (el_attrib root = {["version" := "3"]}))
  then Raise AssertionError
  else
    docfeatures ← parsefeatures (findall2 "GateDocumentFeatures" "Feature" root);
    let st := fold_left text_item (findall "TextWithNodes" root)
                (mkTextstate "" ∅ 0) in
    annotation_sets ←
      annsets_of (ts_node2offset st) (findall "AnnotationSet" root) [];
    Ok (mkDocmap (ts_text st) docfeatures "p" annotation_sets).

Definition load (cls : clazz) (from_ext : option filespec) : result Document :=
  root ← (if match from_ext with Some ext => is_url ext | None => false end
          then
            xmlstring ← get_str_from_url (default (FsStr "") from_ext) (Some "utf-8");
            ET_fromstring xmlstring
          else ET_parse from_ext);
  docmap ← docmap_of root;
  Document_from_dict docmap.

End With_collaborators.
End GateXmlLoader.


(** * Vocabulary of the properties *)

Import MsgPackSerializer.
Import HtmlLoader.

(** The exceptions that reading sets and annotations can raise. *)
Definition read_exn (e : exn) : Prop := e = OutOfData ∨ e = TypeError.

(** The five values that the stream holds for an annotation. *)
Definition ann_values (a : Annotation) : list value :=
  [a_type a; a_start a; a_end a; a_id a; a_features a].

Definition hashable_id (a : Annotation) : Prop := is_Some (hash_key (a_id a)).

(** [annset._annotations[ann.id] = ann] for an annotation with a hashable id *)
Definition store_ann (d : pydict Annotation) (a : Annotation) : pydict Annotation :=
  match hash_key (a_id a) with
  | Some h => dict_store h (a_id a) a d
  | None => d
  end.

Definition dup_first : Annotation :=
  mkAnnotation (VInt 0) (VInt 1) (VStr "T") (VInt 7) (VMap []).
Definition dup_second : Annotation :=
  mkAnnotation (VInt 2) (VInt 3) (VStr "U") (VInt 7) (VMap []).

(** A document that [Document] and [AnnotationSet.add] build: the text
    ["x"] with one annotation in the default set. *)
Definition one_annotation_doc : Document :=
  mkDocument (VStr "p") (VStr "x") (VMap [])
    [(VStr "",
      mkAnnotationSet (VStr "") (VInt 1)
        [(VInt 0, mkAnnotation (VInt 0) (VInt 1) (VStr "Token") (VInt 0) (VMap []))])].

(** The ids of the start events and of the end events, in list order, and
    the types of the start events. *)
Definition start_id (a : anninfo) : option nat :=
  match a with
  | StartInfo _ _ i _ _ => Some i
  | EndInfo _ _ => None
  end.

Definition end_id (a : anninfo) : option nat :=
  match a with
  | StartInfo _ _ _ _ _ => None
  | EndInfo i _ => Some i
  end.

Definition start_type (a : anninfo) : option string :=
  match a with
  | StartInfo t _ _ _ _ => Some t
  | EndInfo _ _ => None
  end.

Definition start_ids (evs : list anninfo) : list nat := omap start_id evs.
Definition end_ids (evs : list anninfo) : list nat := omap end_id evs.
Definition start_types (evs : list anninfo) : list string := omap start_type evs.

(** The tag names of a tree in document order, parents first. *)
Fixpoint tags_preorder (el : node) : list string :=
  match el with
  | Tag name _ children => name :: flat_map tags_preorder children
  | NavigableString _ | OtherNode => []
  end.

(** Event lists as the walk builds them, for the ids from [lo] up to [hi]:
    nothing, one list after another, or a list wrapped in the start and the
    end event of the next id. *)
Inductive balanced : nat → nat → list anninfo → Prop :=
| balanced_nil (n : nat) : balanced n n []
| balanced_app (lo mid hi : nat) (l1 l2 : list anninfo) :
    balanced lo mid l1 → balanced mid hi l2 → balanced lo hi (l1 ++ l2)
| balanced_wrap (lo hi : nat) (t : string) (f : value) (s e : nat)
    (l : list anninfo) :
    balanced (S lo) hi l →
    balanced lo hi (StartInfo t f lo s None :: l ++ [EndInfo lo e]).

(** What one call of [walktree] appends. *)
Definition walk_appends (el : node) : Prop :=
  ∀ d : docinfo, ∃ evs : list anninfo,
    anninfos (walktree el d) = anninfos d ++ evs
    ∧ balanced (curid d) (curid (walktree el d)) evs
    ∧ start_types evs = tags_preorder el.

(** Every end event comes after the start event of its id. *)
Definition starts_first (l : list anninfo) : Prop :=
  ∀ (j i e : nat), l !! j = Some (EndInfo i e) →
    ∃ (k : nat) (a : anninfo), (k < j)%nat ∧ l !! k = Some a ∧ start_id a = Some i.

Definition is_start (a : anninfo) : Prop := is_Some (start_id a).

(** A start dict with its ["end"] entry. *)
Definition ended (a : anninfo) : Prop :=
  match a with
  | StartInfo _ _ _ _ (Some _) => True
  | _ => False
  end.

(** What the newline statement adds to a buffer [s] for a block-level tag. *)
Definition pad (s : string) : string := if endswith_nl s then "" else NL.

(** The claim as the specification words it, for an element without
    children: visited with an empty buffer, a block-level element gets no
    newline, so the buffer stays empty. *)
Definition no_newline_into_empty_buffer : Prop :=
  ∀ (name : string) (attrs : value) (d : docinfo),
    name ∈ nlels → text d = "" → text (walktree (Tag name attrs []) d) = "".

(** Whether the first character of an in-memory source is ["{"]; the
    elements of a [bytes] object are integers, not characters. *)
Definition starts_with_brace (from_mem : option buffer) : bool :=
  match from_mem with
  | Some (BufStr s) => startswith "{" s
  | _ => false
  end.

(** Collaborators for a machine without network whose files all hold the
    text ["{}"], with a JSON parser that accepts just that text. *)
Definition sample_collaborators : Collaborators := {|
  requests_text := λ _ _, Raise (Exception "no network");
  requests_content := λ _, Raise (Exception "no network");
  open_rt := λ _, Ok "{}";
  open_rb := λ _, Ok [];
  gopen_rt := λ _, Raise (Exception "not a gzip file");
  json_dumps := λ _, "{}";
  json_loads := λ b, match b with
                     | BufStr "{}" => Ok (VMap [])
                     | _ => Raise ValueError
                     end;
  compress := λ b, b;
  decompress := λ _, Raise (Exception "not a gzip file");
  encode_utf8 := λ _, [];
  decode_utf8 := λ _, Ok "";
  to_dict := λ _ _, VMap [];
  from_dict := λ _ _, Ok (IDocument (mkDocument (VStr "p") (VStr "") (VMap []) []));
  msgpack_values := λ _, [];
  msgpack_bytes := λ _, [];
  BeautifulSoup := λ _, OtherNode;
|}.

(** The path in a [filespec] that is a [str] or an [os.PathLike]. *)
Definition path_of (filespec : option filespec) : option string :=
  match filespec with
  | Some (FsStr s) | Some (FsPath s) => Some s
  | Some (FsParseResult _) | None => None
  end.

(** A directory prefix: nothing, or a path that ends in the separator. *)
Definition dir_prefix (dir : string) : bool :=
  match str_last dir with
  | None => true
  | Some a => Ascii.eqb a "/"
  end.

(** The values of an annotation set and of a document in the order in which
    [stream2document] reads them. *)
Definition set_values (s : AnnotationSet) : list value :=
  [s_name s; s_next_annid s; VInt (Z.of_nat (length (s_annotations s)))]
  ++ flat_map ann_values (snd <$> s_annotations s).

Definition document_values (doc : Document) : list value :=
  [VStr MSGPACK_VERSION_HDR; d_offset_type doc; d_text doc; d_features doc;
   VInt (Z.of_nat (length (d_annotation_sets doc)))]
  ++ flat_map set_values (snd <$> d_annotation_sets doc).

(** A dict whose entries sit under their own key ([key_of] of the entry),
    with hashable keys that differ from one another. *)
Definition keyed_by {A} (key_of : A → value) (d : pydict A) : Prop :=
  Forall (λ kx, kx.1 = key_of kx.2 ∧ is_Some (hash_key kx.1)) d
  ∧ NoDup ((λ kx, hash_key kx.1) <$> d).

(** A document as the classes keep it: sets under their names, none of them
    [None], and annotations under their ids. *)
Definition well_keyed (doc : Document) : Prop :=
  keyed_by s_name (d_annotation_sets doc)
  ∧ Forall (λ ks, s_name ks.2 ≠ VNone ∧ keyed_by a_id (s_annotations ks.2))
      (d_annotation_sets doc).

(** A document with two overlapping annotations and one with its offsets in
    the wrong order. *)
Definition two_annotation_doc : Document :=
  mkDocument (VStr "p") (VStr "abcd") (VMap [])
    [(VStr "",
      mkAnnotationSet (VStr "") (VInt 2)
        [(VInt 0, mkAnnotation (VInt 0) (VInt 3) (VStr "A") (VInt 0) (VMap []));
         (VInt 1, mkAnnotation (VInt 4) (VInt 1) (VStr "B") (VInt 1) (VMap []))])].

(** A successful read used a prefix [c] of the stream: the result is the
    same with anything else after [c], and a stream that stops inside [c]
    runs out of data. *)
Definition consumes {A} (read : stream → result (A * stream)) (u : stream)
    (r : A) (u' : stream) : Prop :=
  ∃ c, u = c ++ u'
       ∧ (∀ y, read (c ++ y) = Ok (r, y))
       ∧ (∀ p q, c = p ++ q → q ≠ [] → read p = Raise OutOfData).


(** Collaborators whose msgpack coding knows one stream, that of the
    document with the text ["x"] and no annotation set. *)
Definition one_stream_collaborators : Collaborators := {|
  requests_text := λ _ _, Raise (Exception "no network");
  requests_content := λ _, Raise (Exception "no network");
  open_rt := λ _, Raise FileNotFoundError;
  open_rb := λ _, Raise FileNotFoundError;
  gopen_rt := λ _, Raise FileNotFoundError;
  json_dumps := λ _, "{}";
  json_loads := λ _, Raise ValueError;
  compress := λ b, b;
  decompress := λ _, Raise (Exception "not a gzip file");
  encode_utf8 := λ _, [];
  decode_utf8 := λ _, Ok "";
  to_dict := λ _ _, VMap [];
  from_dict := λ _ _, Raise ValueError;
  msgpack_values := λ _, [VStr "sm1"; VStr "p"; VStr "x"; VMap []; VInt 0];
  msgpack_bytes := λ _, [Byte.x00];
  BeautifulSoup := λ _, OtherNode;
|}.

(** The offset that an event carries, and the name and attributes of a
    start event. *)
Definition ev_offset (a : anninfo) : nat :=
  match a with
  | StartInfo _ _ _ s _ => s
  | EndInfo _ e => e
  end.

Definition start_tag (a : anninfo) : option (string * value) :=
  match a with
  | StartInfo t f _ _ _ => Some (t, f)
  | EndInfo _ _ => None
  end.

Definition start_tags (evs : list anninfo) : list (string * value) :=
  omap start_tag evs.

(** The tags of a tree with their attributes, in document order, parents
    first. *)
Fixpoint tags_attrs_preorder (el : node) : list (string * value) :=
  match el with
  | Tag name attrs children => (name, attrs) :: flat_map tags_attrs_preorder children
  | NavigableString _ | OtherNode => []
  end.

(** The strings of a tree, one after the other. *)
Fixpoint text_content (el : node) : string :=
  match el with
  | NavigableString s => s
  | Tag _ _ children => fold_right (λ c t, text_content c +:+ t) "" children
  | OtherNode => ""
  end.

(** Balanced event lists with their offsets: the events of the ids from
    [lo] up to [hi] lie between the offsets [o1] and [o2], and what is
    wrapped lies between the offsets of the events around it. *)
Inductive nested : nat → nat → nat → nat → list anninfo → Prop :=
| nested_nil (n o1 o2 : nat) : (o1 ≤ o2)%nat → nested n n o1 o2 []
| nested_app (lo mid hi o1 o2 o3 : nat) (l1 l2 : list anninfo) :
    nested lo mid o1 o2 l1 → nested mid hi o2 o3 l2 →
    nested lo hi o1 o3 (l1 ++ l2)
| nested_wrap (lo hi o1 o2 : nat) (t : string) (f : value) (s e : nat)
    (l : list anninfo) :
    (o1 ≤ s)%nat → nested (S lo) hi s e l → (e ≤ o2)%nat →
    nested lo hi o1 o2 (StartInfo t f lo s None :: l ++ [EndInfo lo e]).

(** What one call of [walktree] appends, with offsets and attributes. *)
Definition walk_nests (el : node) : Prop :=
  ∀ d : docinfo, ∃ evs : list anninfo,
    anninfos (walktree el d) = anninfos d ++ evs
    ∧ nested (curid d) (curid (walktree el d))
        (curoffset d) (curoffset (walktree el d)) evs
    ∧ start_tags evs = tags_attrs_preorder el.

(** The annotation that pairing makes of a start event and an end offset. *)
Definition added_of (a : anninfo) (e : nat) : added :=
  match a with
  | StartInfo t f _ s _ => mkAdded s e t f
  | EndInfo _ s => mkAdded s e "" VNone
  end.

(** Whether a string has a newline, and whether it has two in a row. *)
Fixpoint has_nl (s : string) : bool :=
  match s with
  | "" => false
  | String a r => Ascii.eqb a nl || has_nl r
  end.

Fixpoint double_nl (s : string) : bool :=
  match s with
  | "" => false
  | String a r =>
      match r with
      | String b _ => Ascii.eqb a nl && Ascii.eqb b nl
      | "" => false
      end || double_nl r
  end.

(** No string of the tree has a newline. *)
Fixpoint strings_nl_free (el : node) : bool :=
  match el with
  | NavigableString s => negb (has_nl s)
  | Tag _ _ children => forallb strings_nl_free children
  | OtherNode => true
  end.

(** What the walk keeps: the offset is the length of the buffer. *)
Definition offset_is_length (d : docinfo) : Prop :=
  curoffset d = String.length (text d).

(** The ids of the nodes in the text of a GATE document, and a [Feature]
    element with a string name and a value of the class [cls]. *)
Definition node_ids (root : element) : list (option string) :=
  (λ node, el_attrib node !! "id")
    <$> flat_map el_children (findall "TextWithNodes" root).

Definition feature_element (name cls : string) (text : option string) : element :=
  Element "Feature" ∅ None
    [Element "Name" {["className" := "java.lang.String"]} (Some name) [] None;
     Element "Value" {["className" := cls]} text [] None]
    None.

(** The classes of feature values that the GATE XML loader converts. *)
Definition known_value_classes : list string :=
  ["java.lang.String"; "java.lang.Integer"; "java.lang.Long";
   "java.math.BigDecimal"; "java.lang.Boolean"].

(** The text loop keeps the offset equal to the length of the text, and no
    node lies beyond it. *)
Definition textstate_ok (st : GateXmlLoader.textstate) : Prop :=
  GateXmlLoader.ts_curoff st = String.length (GateXmlLoader.ts_text st)
  ∧ map_Forall (λ _ o, (o ≤ GateXmlLoader.ts_curoff st)%nat)
      (GateXmlLoader.ts_node2offset st).

(** A set whose counter is above its ids and whose offsets lie within a
    text of length [len]. *)
Definition annotation_ok (len : nat) (top : Z) (a : xml_annotation) : Prop :=
  xa_id a ≤ top ∧ (xa_start a ≤ len)%nat ∧ (xa_end a ≤ len)%nat.

Definition annset_ok (len : nat) (s : xml_annset) : Prop :=
  1 ≤ xs_next_annid s
  ∧ Forall (annotation_ok len (xs_next_annid s - 1)) (xs_annotations s).

(** A GATE document with the text ["abc"], two nodes and one annotation
    between them, and the dict that the loader builds for it when every id
    reads as 1. *)
Definition sample_gate_document : element :=
  Element "GateDocument" {["version" := "3"]} None
    [Element "TextWithNodes" ∅ (Some "a")
       [Element "Node" {["id" := "0"]} None [] (Some "bc");
        Element "Node" {["id" := "1"]} None [] None] None;
     Element "AnnotationSet" ∅ None
       [Element "Annotation"
          (list_to_map [("Id", "1"); ("Type", "T"); ("StartNode", "0");
                        ("EndNode", "1")]) None [] None] None]
    None.

Definition sample_gate_docmap : docmap :=
  mkDocmap "abc" [] "p"
    [(VStr "", mkXmlAnnset "" [mkXmlAnnotation 1 "T" 1 3 None] 2)].

(** A GATE document with one node and one annotation that ends at a node
    which is not in the text. *)
Definition dangling_annotation : element :=
  Element "Annotation"
    (list_to_map [("Id", "1"); ("Type", "T"); ("StartNode", "0"); ("EndNode", "2")])
    None [] None.

Definition dangling_annset : element :=
  Element "AnnotationSet" ∅ None [dangling_annotation] None.

Definition dangling_gate_document : element :=
  Element "GateDocument" {["version" := "3"]} None
    [Element "TextWithNodes" ∅ None
       [Element "Node" {["id" := "0"]} None [] (Some "ab")] None;
     dangling_annset]
    None.

(** * Properties *)

(** ** Strings *)

Lemma str_app_nil (s : string) : "" +:+ s = s.
Proof. reflexivity. Qed.

Lemma str_app_cons (a : ascii) (s t : string) :
  String a s +:+ t = String a (s +:+ t).
Proof. reflexivity. Qed.

Ltac str_simpl := rewrite ?str_app_cons, ?str_app_nil; simpl.

Lemma str_length_app (s t : string) :
  String.length (s +:+ t) = (String.length s + String.length t)%nat.
Proof. induction s as [|a s IH]; str_simpl; [done | by rewrite IH]. Qed.

Lemma str_take_app (s t : string) : str_take (String.length s) (s +:+ t) = s.
Proof. induction s as [|a s IH]; str_simpl; [by destruct t | by rewrite IH]. Qed.

Lemma str_drop_app (s t : string) : str_drop (String.length s) (s +:+ t) = t.
Proof. induction s as [|a s IH]; str_simpl; [by destruct t | done]. Qed.

Lemma str_get_app (s t : string) (a : ascii) :
  String.get (String.length s) (s +:+ String a t) = Some a.
Proof. induction s as [|b s IH]; str_simpl; done. Qed.

Lemma str_app_assoc (s t u : string) : (s +:+ t) +:+ u = s +:+ t +:+ u.
Proof. induction s as [|a s IH]; str_simpl; [done | by rewrite IH]. Qed.

Lemma rfind_bounds (c : ascii) (s : string) :
  -1 ≤ rfind c s < Z.of_nat (String.length s).
Proof.
  induction s as [|a s IH]; simpl String.length; simpl rfind; [lia|].
  destruct (Z.leb_spec 0 (rfind c s)); [lia|].
  destruct (Ascii.eqb a c); lia.
Qed.

Lemma rfind_app (c : ascii) (s t : string) :
  rfind c (s +:+ t) =
    if 0 <=? rfind c t then Z.of_nat (String.length s) + rfind c t else rfind c s.
Proof.
  induction s as [|a s IH]; str_simpl.
  - pose proof (rfind_bounds c t).
    destruct (Z.leb_spec 0 (rfind c t)); lia.
  - rewrite IH.
    destruct (Z.leb_spec 0 (rfind c t)) as [Ht|Ht].
    + destruct (Z.leb_spec 0 (Z.of_nat (String.length s) + rfind c t)); lia.
    + done.
Qed.

(** The last character decides: a string that ends in a character other
    than [c] has its last [c] before that character. *)
Lemma rfind_snoc_ne (c a : ascii) (s : string) :
  a ≠ c → rfind c (s +:+ String a "") = rfind c s.
Proof.
  intros Hne. rewrite rfind_app. simpl.
  by destruct (Ascii.eqb_spec a c).
Qed.

(** ** [os.path.splitext] *)

Lemma splitext_scan_hit (p : string) (dotIndex : Z) (j : nat) (a : ascii) :
  String.get j p = Some a → a ≠ "."%char → Z.of_nat j < dotIndex →
  ∀ (n : nat) (i : Z),
    0 ≤ i ≤ Z.of_nat j → (Z.of_nat j - i < Z.of_nat n) →
    splitext_scan p dotIndex i n
    = (str_take (Z.to_nat dotIndex) p, str_drop (Z.to_nat dotIndex) p).
Proof.
  intros Hget Hne Hlt n. induction n as [|n IH]; intros i Hi Hn; [lia|].
  simpl. destruct (Z.ltb_spec i dotIndex); [|lia].
  case_bool_decide as Hc; [done|].
  apply IH; [|lia].
  destruct (decide (i = Z.of_nat j)) as [->|]; [|lia].
  rewrite Nat2Z.id, Hget in Hc. congruence.
Qed.

(** A path [stem ++ "." ++ e] whose extension [e] has neither a dot nor a
    separator, and whose stem ends in a character that is neither, splits at
    that dot. *)
Lemma str_last_snoc (s : string) (a : ascii) :
  str_last s = Some a → ∃ pre, s = pre +:+ String a "".
Proof.
  induction s as [|b s IH]; [done|]. destruct s as [|c s].
  - intros [= ->]. by exists "".
  - intros Hl. destruct (IH Hl) as [pre Hpre]. exists (String b pre).
    by rewrite str_app_cons, <- Hpre.
Qed.

Lemma str_last_app (s t : string) : t ≠ "" → str_last (s +:+ t) = str_last t.
Proof.
  intros Ht. induction s as [|b s IH]; [done|]. rewrite str_app_cons.
  simpl. rewrite IH. destruct (s +:+ t) eqn:E; [|done].
  destruct s; [|done]. by rewrite str_app_nil in E.
Qed.

Lemma ends_in_name_char_inv (s : string) :
  ends_in_name_char s = true →
  ∃ pre a, s = pre +:+ String a "" ∧ a ≠ "."%char ∧ a ≠ "/"%char.
Proof.
  unfold ends_in_name_char. destruct (str_last s) as [a|] eqn:Hl; [|done].
  intros [H1 H2]%andb_prop. destruct (str_last_snoc _ _ Hl) as [pre ->].
  exists pre, a. split; [done|].
  split; intros ->; by rewrite ?Ascii.eqb_refl in *.
Qed.

Lemma ends_in_name_char_app (s t : string) :
  ends_in_name_char t = true → ends_in_name_char (s +:+ t) = true.
Proof.
  unfold ends_in_name_char. intros Ht. rewrite str_last_app; [done|].
  by intros ->.
Qed.

Lemma splitext_ext (stem e : string) :
  ends_in_name_char stem = true →
  rfind "."%char e = -1 → rfind "/"%char e = -1 →
  splitext (stem +:+ String "."%char e) = (stem, String "."%char e).
Proof.
  intros (pre & a & -> & Hdot & Hsep)%ends_in_name_char_inv He1 He2.
  set (stem := pre +:+ String a "").
  unfold splitext.
  assert (Hd : rfind "."%char (stem +:+ String "." e) = Z.of_nat (String.length stem)).
  { rewrite rfind_app. simpl. rewrite He1. simpl. lia. }
  assert (Hs : rfind "/"%char (stem +:+ String "." e) = rfind "/"%char pre).
  { rewrite rfind_app. simpl. rewrite He2. simpl. unfold stem.
    by apply rfind_snoc_ne. }
  rewrite Hd, Hs.
  assert (Hlen : String.length stem = S (String.length pre)).
  { unfold stem. rewrite str_length_app. simpl. lia. }
  pose proof (rfind_bounds "/"%char pre) as Hb.
  destruct (Z.ltb_spec (rfind "/"%char pre) (Z.of_nat (String.length stem))); [|lia].
  rewrite (splitext_scan_hit _ _ (String.length pre) a).
  - rewrite Nat2Z.id. by rewrite str_take_app, str_drop_app.
  - unfold stem. rewrite str_app_assoc, str_app_cons, str_app_nil.
    apply str_get_app.
  - done.
  - lia.
  - lia.
  - lia.
Qed.

(** The key looked up for a file name with a simple extension [e], and for
    one with the compound extension [e ++ ".gz"]. *)
Lemma extension_key_simple (stem e : string) :
  ends_in_name_char stem = true →
  rfind "."%char e = -1 → rfind "/"%char e = -1 → e ≠ "gz" →
  extension_key (stem +:+ String "."%char e) = e.
Proof.
  intros. unfold extension_key. rewrite splitext_ext by done.
  rewrite bool_decide_eq_false_2 by congruence.
  by rewrite bool_decide_eq_false_2.
Qed.

Lemma extension_key_gz (stem e : string) :
  ends_in_name_char stem = true → ends_in_name_char e = true →
  rfind "."%char e = -1 → rfind "/"%char e = -1 →
  extension_key (stem +:+ String "."%char (e +:+ ".gz")) = e +:+ ".gz".
Proof.
  intros Hstem He He1 He2. unfold extension_key.
  replace (stem +:+ String "." (e +:+ ".gz"))
    with ((stem +:+ String "." e) +:+ String "." "gz").
  2:{ by rewrite str_app_assoc, str_app_cons. }
  assert (Hse : ends_in_name_char (stem +:+ String "." e) = true).
  { apply ends_in_name_char_app. change (String "."%char e) with ("." +:+ e).
    by apply ends_in_name_char_app. }
  rewrite splitext_ext by done.
  rewrite bool_decide_eq_true_2 by done.
  by rewrite splitext_ext by done.
Qed.

(** ** Handler resolution *)

(** C5: with no explicit format, [get_handler] resolves a file name ending
    in [.bdocjs.gz] to the JSON+gzip saver of the saver table and one ending
    in [.bdocmp] to the msgpack saver, for the spec's ["doc.bdocjs.gz"] and
    ["doc.bdocmp"] and for every path whose file name proper ends in a
    character other than a dot or a separator; and it raises for every path
    whose extension key is not in [EXTENSIONS], whatever the handler table. *)
Theorem get_handler_by_extension :
  get_document_saver (Some (FsStr "doc.bdocjs.gz")) None = Ok JsonSerializer_save_gzip
  ∧ get_document_saver (Some (FsStr "doc.bdocmp")) None = Ok MsgPackSerializer_save
  ∧ (∀ (stem : string) (fmt : option string),
       ends_in_name_char stem = true → fmt_truthy fmt = false →
       get_document_saver (Some (FsStr (stem +:+ ".bdocjs.gz"))) fmt
         = Ok JsonSerializer_save_gzip
       ∧ get_document_saver (Some (FsPath (stem +:+ ".bdocjs.gz"))) fmt
         = Ok JsonSerializer_save_gzip
       ∧ get_document_saver (Some (FsStr (stem +:+ ".bdocmp"))) fmt
         = Ok MsgPackSerializer_save
       ∧ get_document_saver (Some (FsPath (stem +:+ ".bdocmp"))) fmt
         = Ok MsgPackSerializer_save)
  ∧ (∀ (wf : string) (fmt : option string) (handlers : gmap string handler)
       (saveload what : string),
       fmt_truthy fmt = false → EXTENSIONS !! extension_key wf = None →
       raises (get_handler (Some (FsStr wf)) fmt handlers saveload what)
       ∧ raises (get_handler (Some (FsPath wf)) fmt handlers saveload what)).
Proof.
  split; [by vm_compute|]. split; [by vm_compute|]. split.
  - intros stem fmt Hstem Hfmt.
    assert (Hgz : extension_key (stem +:+ ".bdocjs.gz") = "bdocjs.gz").
    { by apply (extension_key_gz stem "bdocjs"). }
    assert (Hmp : extension_key (stem +:+ ".bdocmp") = "bdocmp").
    { by apply (extension_key_simple stem "bdocmp"). }
    assert (Hne : ∀ s, ends_in_name_char s = true →
              filespec_falsy (Some (FsStr s)) = false).
    { intros s Hs. simpl. apply bool_decide_eq_false_2. by intros ->. }
    unfold get_document_saver, get_handler. rewrite Hfmt.
    rewrite !Hne by by apply ends_in_name_char_app.
    simpl. rewrite Hgz, Hmp. by vm_compute.
  - intros wf fmt handlers saveload what Hfmt Hext.
    unfold get_handler. rewrite Hfmt. simpl. rewrite Hext. simpl.
    by case_bool_decide.
Qed.

Lemma get_handler_by_extension_witness :
  ends_in_name_char "corpus/doc" = true ∧ fmt_truthy None = false
  ∧ get_document_saver (Some (FsStr "corpus/doc.bdocjs.gz")) None
    = Ok JsonSerializer_save_gzip
  ∧ EXTENSIONS !! extension_key "doc.txt" = None
  ∧ raises (get_handler (Some (FsStr "doc.txt")) None DOCUMENT_SAVERS "save" "document").
Proof.
  destruct get_handler_by_extension as (_ & _ & Hgen & Hmiss).
  split; [reflexivity|]. split; [reflexivity|]. split.
  - apply (Hgen "corpus/doc" None); reflexivity.
  - split; [reflexivity|].
    apply (Hmiss "doc.txt" None DOCUMENT_SAVERS "save" "document"); reflexivity.
Defined.

(** C6: saving to a path that ends in [.bdocym.gz] does not reach a saver.
    [EXTENSIONS] maps ["bdocym.gz"] to ["text/bdocym+gzip"], the saver table
    has no such key (its YAML+gzip key ends in a second [+] and is bound to
    the plain YAML saver), so [get_handler] raises; the loader table, which
    spells the key without it, resolves. *)
Theorem bdocym_gz_has_no_saver :
  EXTENSIONS !! "bdocym.gz" = Some "text/bdocym+gzip"
  ∧ DOCUMENT_SAVERS !! "text/bdocym+gzip" = None
  ∧ DOCUMENT_SAVERS !! "text/bdocym+gzip+" = Some YamlSerializer_save
  ∧ (∀ fmt : string, DOCUMENT_SAVERS !! fmt ≠ Some YamlSerializer_save_gzip)
  ∧ get_document_saver (Some (FsStr "doc.bdocym.gz")) None
    = Raise (Exception "Could not determine how to save document for format text/bdocym+gzip and with extension bdocym.gz in module gatenlp.serialization.default")
  ∧ get_document_loader (Some (FsStr "doc.bdocym.gz")) None
    = Ok YamlSerializer_load_gzip.
Proof.
  repeat split; try by vm_compute.
  intros fmt Hfmt.
  assert (Hin : (fmt, YamlSerializer_save_gzip) ∈ map_to_list DOCUMENT_SAVERS)
    by by apply elem_of_map_to_list.
  revert Hin. vm_compute map_to_list. intros Hin.
  repeat (apply elem_of_cons in Hin as [Heq|Hin]; [by inversion Heq|]).
  by apply elem_of_nil in Hin.
Qed.

(** ** The JSON saver *)

Section Json_save.
Context `{Collaborators}.

(** C7: with an in-memory target and [gzip] set, [JsonSerializer.save]
    computes the compressed bytes and drops them: it returns [None] and
    writes nothing, and so does [save_gzip], which also drops what [save]
    returns.  Without [gzip] the in-memory save returns the JSON string. *)
Theorem json_save_mem_gzip_returns_none (cls : clazz) (inst : instance)
    (to_ext : option filespec) (offset_type : option string) :
  JsonSerializer.save cls inst to_ext true offset_type true = Ok (VNone, [])
  ∧ JsonSerializer.save_gzip cls inst to_ext true offset_type = Ok (VNone, [])
  ∧ JsonSerializer.save cls inst to_ext true offset_type false
    = Ok (VStr (json_dumps (to_dict inst offset_type)), []).
Proof. by repeat split. Qed.

End Json_save.

(** ** The msgpack codec *)

Ltac next_value u :=
  destruct u as [|? u]; [simpl; intros [= <-]; by (left + right)|]; simpl.

Lemma dict_setitem_raise {A} (d : pydict A) (k : value) (x : A) (e : exn) :
  dict_setitem d k x = Raise e → e = TypeError.
Proof. unfold dict_setitem. destruct (hash_key k); by intros [= <-]. Qed.

Lemma py_range_raise (v : value) (e : exn) : py_range v = Raise e → e = TypeError.
Proof. destruct v; simpl; by intros [= <-]. Qed.

Lemma read_annotations_raise (n : nat) (u : stream) (d : pydict Annotation) (e : exn) :
  read_annotations n u d = Raise e → read_exn e.
Proof.
  revert u d. induction n as [|n IH]; intros u d; [done|]. simpl.
  do 4 next_value u. destruct u as [|afeatures u]; [simpl; intros [= <-]; by left|].
  simpl. destruct (dict_setitem d _ _) as [d'|e'] eqn:Hset; simpl.
  - apply IH.
  - intros [= <-]. right. by eapply dict_setitem_raise.
Qed.

Lemma read_sets_raise (n : nat) (u : stream) (d : pydict AnnotationSet) (e : exn) :
  read_sets n u d = Raise e → read_exn e.
Proof.
  revert u d. induction n as [|n IH]; intros u d; [done|]. simpl.
  do 2 next_value u. destruct u as [|nanns u]; [simpl; intros [= <-]; by left|].
  simpl. destruct (py_range nanns) as [k|e'] eqn:Hr; simpl.
  2:{ intros [= <-]. right. by eapply py_range_raise. }
  destruct (read_annotations k u []) as [[anns u']|e'] eqn:Hanns; simpl.
  2:{ intros [= <-]. by eapply read_annotations_raise. }
  destruct (dict_setitem d _ _) as [d'|e'] eqn:Hset; simpl.
  - apply IH.
  - intros [= <-]. right. by eapply dict_setitem_raise.
Qed.

(** C3: a stream whose first value is anything but the string ["sm1"] makes
    [stream2document] raise the wrong-version exception, whatever follows;
    a stream that starts with ["sm1"] never raises it. *)
Theorem version_guard (v : value) (rest : stream) :
  (v ≠ VStr "sm1" →
     stream2document (v :: rest)
     = Raise (Exception "MsgPack data starts with wrong version"))
  ∧ (∀ msg : string, stream2document (VStr "sm1" :: rest) ≠ Raise (Exception msg)).
Proof.
  split.
  - intros Hv. unfold stream2document. simpl.
    destruct v as [| | |s| | |]; try done.
    unfold MSGPACK_VERSION_HDR. case_bool_decide; [congruence | done].
  - intros msg. unfold stream2document. simpl.
    assert (Hno : ¬ read_exn (Exception msg)) by by intros [|].
    destruct rest as [|ot u]; [done|]. destruct u as [|txt u]; [done|].
    destruct u as [|feats u]; [done|]. destruct u as [|nsets u]; [done|]. simpl.
    destruct (py_range nsets) as [k|e'] eqn:Hr; simpl.
    2:{ apply py_range_raise in Hr as ->. done. }
    destruct (read_sets k u []) as [[sets u']|e'] eqn:Hsets; simpl; [done|].
    intros [= ->]. by apply read_sets_raise in Hsets.
Qed.

Lemma version_guard_witness :
  VStr "sm2" ≠ VStr "sm1"
  ∧ stream2document [VStr "sm2"; VStr "p"; VStr "x"; VMap []; VInt 0]
    = Raise (Exception "MsgPack data starts with wrong version").
Proof.
  split; [discriminate|].
  apply (version_guard (VStr "sm2") [VStr "p"; VStr "x"; VMap []; VInt 0]).
  discriminate.
Defined.

(** *** Decoding annotations into the id-keyed mapping *)

Lemma dict_find_store_eq {A} (h : key) (k : value) (x : A) (d : pydict A) :
  hash_key k = Some h → dict_find h (dict_store h k x d) = Some x.
Proof.
  intros Hk. induction d as [|[k' x'] d IH]; simpl.
  - by rewrite bool_decide_eq_true_2.
  - case_bool_decide as Hh; simpl.
    + by rewrite bool_decide_eq_true_2.
    + by rewrite bool_decide_eq_false_2.
Qed.

Lemma dict_find_store_ne {A} (h h' : key) (k : value) (x : A) (d : pydict A) :
  hash_key k = Some h → h ≠ h' →
  dict_find h' (dict_store h k x d) = dict_find h' d.
Proof.
  intros Hk Hne. induction d as [|[k' x'] d IH]; simpl.
  - rewrite bool_decide_eq_false_2; [done | congruence].
  - case_bool_decide as Hh; simpl.
    + rewrite !bool_decide_eq_false_2; [done | congruence..].
    + case_bool_decide; [done | apply IH].
Qed.

Lemma dict_store_length {A} (h : key) (k : value) (x : A) (d : pydict A) :
  length (dict_store h k x d)
  = match dict_find h d with
    | Some _ => length d
    | None => S (length d)
    end.
Proof.
  induction d as [|[k' x'] d IH]; simpl; [done|].
  case_bool_decide; simpl; [done|]. rewrite IH. by destruct (dict_find h d).
Qed.

Lemma read_annotations_flat (anns : list Annotation) (u : stream)
    (d : pydict Annotation) :
  Forall hashable_id anns →
  read_annotations (length anns) (flat_map ann_values anns ++ u) d
  = Ok (fold_left store_ann anns d, u).
Proof.
  intros Hall. revert d. induction Hall as [|a anns [h Hh] _ IH]; intros d; [done|].
  simpl. unfold dict_setitem, store_ann. rewrite Hh. simpl.
  destruct a; simpl in *. apply IH.
Qed.

Lemma store_ann_find_last (d : pydict Annotation) (l : list Annotation)
    (b : Annotation) (h : key) :
  hash_key (a_id b) = Some h →
  Forall (λ c, hash_key (a_id c) ≠ Some h) l →
  dict_find h (fold_left store_ann l (store_ann d b)) = Some b.
Proof.
  intros Hb Hl. assert (Hd : dict_find h (store_ann d b) = Some b).
  { unfold store_ann. rewrite Hb. by apply dict_find_store_eq. }
  revert Hd. generalize (store_ann d b). clear d.
  induction Hl as [|c l Hc _ IH]; intros d Hd; [done|]. simpl. apply IH.
  unfold store_ann. destruct (hash_key (a_id c)) as [hc|] eqn:Hhc; [|done].
  rewrite dict_find_store_ne; [done | done | congruence].
Qed.

Lemma store_ann_length (d : pydict Annotation) (a : Annotation) :
  (length (store_ann d a) ≤ S (length d))%nat.
Proof.
  unfold store_ann. destruct (hash_key (a_id a)); [|lia].
  rewrite dict_store_length. destruct (dict_find _ d); lia.
Qed.

Lemma store_all_length (l : list Annotation) (d : pydict Annotation) :
  (length (fold_left store_ann l d) ≤ length d + length l)%nat.
Proof.
  revert d. induction l as [|a l IH]; intros d; simpl; [lia|].
  specialize (IH (store_ann d a)). pose proof (store_ann_length d a). lia.
Qed.

Lemma store_ann_keeps (d : pydict Annotation) (a : Annotation) (h : key) :
  is_Some (dict_find h d) → is_Some (dict_find h (store_ann d a)).
Proof.
  intros Hd. unfold store_ann. destruct (hash_key (a_id a)) as [ha|] eqn:Ha; [|done].
  destruct (decide (ha = h)) as [->|Hne].
  - rewrite dict_find_store_eq; [by eexists | done].
  - by rewrite dict_find_store_ne.
Qed.

Lemma store_all_keeps (l : list Annotation) (d : pydict Annotation) (h : key) :
  is_Some (dict_find h d) → is_Some (dict_find h (fold_left store_ann l d)).
Proof.
  revert d. induction l as [|a l IH]; intros d Hd; [done|]. simpl.
  by apply IH, store_ann_keeps.
Qed.

(** C10: a set read from the stream with two annotations of the same id
    ([a] before [b], and no later annotation with that id) decodes without
    an exception; the id then maps to [b], and the set holds fewer
    annotations than the count that was read. *)
Theorem duplicate_ids_overwrite (ot txt feats sname nextid : value)
    (l1 l2 l3 : list Annotation) (a b : Annotation) (rest : stream) :
  let anns := l1 ++ a :: l2 ++ b :: l3 in
  Forall hashable_id anns → is_Some (hash_key sname) →
  hash_key (a_id a) = hash_key (a_id b) →
  Forall (λ c, hash_key (a_id c) ≠ hash_key (a_id b)) l3 →
  ∃ D : pydict Annotation,
    stream2document
      ([VStr "sm1"; ot; txt; feats; VInt 1; sname; nextid;
        VInt (Z.of_nat (length anns))] ++ flat_map ann_values anns ++ rest)
    = Ok (mkDocument ot txt feats
            [(none_to_empty sname, mkAnnotationSet (none_to_empty sname) nextid D)])
    ∧ dict_get D (a_id a) = Some b
    ∧ dict_get D (a_id b) = Some b
    ∧ (length D < length anns)%nat.
Proof.
  intros anns Hall [hs Hs] Hab Hl3.
  exists (fold_left store_ann anns []). split; [|split; [|split]].
  - unfold stream2document. simpl. rewrite Nat2Z.id.
    rewrite read_annotations_flat by done. simpl.
    unfold dict_setitem.
    assert (Hs' : is_Some (hash_key (none_to_empty sname))) by by destruct sname.
    destruct Hs' as [hs' ->]. done.
  - assert (Hb : hashable_id b).
    { rewrite Forall_forall in Hall. apply Hall. unfold anns.
      rewrite !elem_of_app, !elem_of_cons, !elem_of_app, !elem_of_cons. auto. }
    destruct Hb as [h Hb]. unfold dict_get. rewrite Hab, Hb. simpl.
    unfold anns. rewrite app_comm_cons, app_assoc, fold_left_app. simpl.
    apply store_ann_find_last; [done|]. by rewrite <- Hb.
  - assert (Hb : hashable_id b).
    { rewrite Forall_forall in Hall. apply Hall. unfold anns.
      rewrite !elem_of_app, !elem_of_cons, !elem_of_app, !elem_of_cons. auto. }
    destruct Hb as [h Hb]. unfold dict_get. rewrite Hb. simpl.
    unfold anns. rewrite app_comm_cons, app_assoc, fold_left_app. simpl.
    apply store_ann_find_last; [done|]. by rewrite <- Hb.
  - assert (Ha : hashable_id a).
    { rewrite Forall_forall in Hall. apply Hall. unfold anns.
      rewrite !elem_of_app, !elem_of_cons. auto. }
    destruct Ha as [h Ha]. unfold anns.
    rewrite fold_left_app. simpl. rewrite fold_left_app. simpl.
    set (D1 := fold_left store_ann l1 []).
    set (D3 := fold_left store_ann l2 (store_ann D1 a)).
    assert (H1 : (length D1 ≤ length l1)%nat) by apply (store_all_length l1 []).
    assert (H2 : (length D3 ≤ length l1 + 1 + length l2)%nat).
    { pose proof (store_all_length l2 (store_ann D1 a)).
      pose proof (store_ann_length D1 a). fold D3 in H. lia. }
    assert (Hin : is_Some (dict_find h D3)).
    { apply store_all_keeps. unfold store_ann. rewrite Ha.
      rewrite dict_find_store_eq; [by eexists | done]. }
    assert (H4 : length (store_ann D3 b) = length D3).
    { unfold store_ann. rewrite <- Hab, Ha. rewrite dict_store_length.
      by destruct Hin as [? ->]. }
    pose proof (store_all_length l3 (store_ann D3 b)) as H5.
    rewrite !length_app. simpl. rewrite !length_app. simpl. lia.
Qed.

Lemma duplicate_ids_overwrite_witness :
  ∃ D : pydict Annotation,
    stream2document
      [VStr "sm1"; VStr "p"; VStr "abcd"; VMap []; VInt 1; VStr ""; VInt 8; VInt 2;
       VStr "T"; VInt 0; VInt 1; VInt 7; VMap [];
       VStr "U"; VInt 2; VInt 3; VInt 7; VMap []]
    = Ok (mkDocument (VStr "p") (VStr "abcd") (VMap [])
            [(VStr "", mkAnnotationSet (VStr "") (VInt 8) D)])
    ∧ dict_get D (VInt 7) = Some dup_second
    ∧ dict_get D (VInt 7) = Some dup_second
    ∧ (length D < 2)%nat.
Proof.
  apply (duplicate_ids_overwrite (VStr "p") (VStr "abcd") (VMap []) (VStr "")
           (VInt 8) [] [] [] dup_first dup_second []).
  - repeat constructor; by eexists.
  - by eexists.
  - reflexivity.
  - constructor.
Defined.

(** *** Encoding, and the round trip *)

Lemma pack_sets_raises (items : list value) (s : stream) :
  items ≠ [] → raises (pack_sets items s).
Proof.
  destruct items as [|item items]; [done|]. intros _. simpl.
  unfold unpack_pair. destruct (py_iter item) as [[|name [|annset [|]]]|]; done.
Qed.

(** C1: [document2stream] iterates the mapping of annotation sets itself,
    which yields the set names, and takes each name apart as a
    [(name, annset)] pair.  So it raises for every document that has an
    annotation set, the default set of [one_annotation_doc] included, and
    there is nothing to decode; a document without annotation sets does
    round-trip. *)
Theorem roundtrip_only_without_sets :
  document2stream one_annotation_doc [] = Raise ValueError
  ∧ (∀ (doc : Document) (s : stream),
       d_annotation_sets doc ≠ [] → raises (document2stream doc s))
  ∧ (∀ doc : Document,
       d_annotation_sets doc = [] →
       document2stream doc [] ≫= stream2document = Ok doc).
Proof.
  split; [reflexivity|]. split.
  - intros doc s Hsets. unfold document2stream. apply pack_sets_raises.
    by destruct (d_annotation_sets doc).
  - intros [ot txt feats sets]. simpl. by intros ->.
Qed.

Lemma roundtrip_only_without_sets_witness :
  d_annotation_sets one_annotation_doc ≠ []
  ∧ raises (document2stream one_annotation_doc [])
  ∧ document2stream (mkDocument (VStr "p") (VStr "x") (VMap []) []) []
      ≫= stream2document
    = Ok (mkDocument (VStr "p") (VStr "x") (VMap []) []).
Proof.
  destruct roundtrip_only_without_sets as (_ & Hraise & Hempty).
  split; [discriminate|]. split.
  - apply (Hraise one_annotation_doc []). discriminate.
  - apply (Hempty (mkDocument (VStr "p") (VStr "x") (VMap []) [])). reflexivity.
Defined.

(** ** The markup walk *)

Lemma node_induction (P : node → Prop) :
  (∀ s, P (NavigableString s)) →
  (∀ name attrs children, Forall P children → P (Tag name attrs children)) →
  P OtherNode →
  ∀ el, P el.
Proof.
  intros Hstr Htag Hother. fix IH 1. intros [s|name attrs children|].
  - apply Hstr.
  - apply Htag. induction children as [|c cs IHcs]; constructor.
    + apply IH.
    + apply IHcs.
  - apply Hother.
Qed.

Lemma newline_for_anninfos (name : string) (d : docinfo) :
  anninfos (newline_for name d) = anninfos d ∧ curid (newline_for name d) = curid d.
Proof. unfold newline_for. by destruct (_ && _). Qed.

Lemma walktree_tag (name : string) (attrs : value) (children : list node)
    (d : docinfo) :
  walktree (Tag name attrs children) d =
    let d1 := newline_for name d in
    let d2 := mkDocinfo (anninfos d1 ++ [StartInfo name attrs (curid d1) (curoffset d1) None])
                (curoffset d1) (curid d1 + 1) (text d1) in
    let d3 := fold_left (λ d child, walktree child d) children d2 in
    let d4 := newline_for name d3 in
    mkDocinfo (anninfos d4 ++ [EndInfo (curid d1) (curoffset d4)])
      (curoffset d4) (curid d4) (text d4).
Proof. reflexivity. Qed.

Lemma walk_children_appends (children : list node) :
  Forall walk_appends children →
  ∀ d : docinfo, ∃ evs : list anninfo,
    let d' := fold_left (λ d child, walktree child d) children d in
    anninfos d' = anninfos d ++ evs
    ∧ balanced (curid d) (curid d') evs
    ∧ start_types evs = flat_map tags_preorder children.
Proof.
  induction 1 as [|c cs Hc _ IH]; intros d; simpl.
  - exists []. rewrite app_nil_r. split; [done|]. split; [constructor | done].
  - destruct (Hc d) as (evs1 & Ha1 & Hb1 & Ht1).
    destruct (IH (walktree c d)) as (evs2 & Ha2 & Hb2 & Ht2). simpl in *.
    exists (evs1 ++ evs2). split; [by rewrite Ha2, Ha1, app_assoc|].
    split; [by econstructor|].
    unfold start_types in *. by rewrite omap_app, Ht1, Ht2.
Qed.

Lemma walktree_appends (el : node) : walk_appends el.
Proof.
  induction el as [s|name attrs children IH|] using node_induction; intros d.
  - exists []. simpl. rewrite app_nil_r. split; [done|]. split; [constructor | done].
  - rewrite walktree_tag. cbv zeta.
    destruct (newline_for_anninfos name d) as [Ha1 Hc1].
    set (d1 := newline_for name d) in *.
    set (d2 := mkDocinfo _ (curoffset d1) _ _).
    destruct (walk_children_appends children IH d2) as (evs & Ha3 & Hb3 & Ht3).
    cbv zeta in *. set (d3 := fold_left _ children d2) in *.
    destruct (newline_for_anninfos name d3) as [Ha4 Hc4].
    set (d4 := newline_for name d3) in *.
    exists (StartInfo name attrs (curid d) (curoffset d1) None
              :: evs ++ [EndInfo (curid d) (curoffset d4)]).
    simpl. rewrite Ha4, Ha3, Hc4. simpl. rewrite Ha1, !Hc1.
    split; [by rewrite <- !app_assoc|]. split.
    + constructor. simpl in Hb3. by rewrite Hc1, Nat.add_1_r in Hb3.
    + unfold start_types in *. simpl. rewrite omap_app, Ht3. simpl.
      by rewrite app_nil_r.
  - exists []. simpl. rewrite app_nil_r. split; [done|]. split; [constructor | done].
Qed.

(** *** What a balanced event list guarantees *)

Lemma balanced_le (lo hi : nat) (l : list anninfo) :
  balanced lo hi l → (lo ≤ hi)%nat.
Proof. induction 1; lia. Qed.

Lemma balanced_start_ids (lo hi : nat) (l : list anninfo) :
  balanced lo hi l → start_ids l = seq lo (hi - lo).
Proof.
  unfold start_ids.
  induction 1 as [n|lo mid hi l1 l2 H1 IH1 H2 IH2|lo hi t f s e l H1 IH1].
  - by rewrite Nat.sub_diag.
  - apply balanced_le in H1, H2. rewrite omap_app, IH1, IH2.
    replace (hi - lo)%nat with ((mid - lo) + (hi - mid))%nat by lia.
    rewrite seq_app. by replace (lo + (mid - lo))%nat with mid by lia.
  - apply balanced_le in H1. simpl. rewrite omap_app, IH1. simpl.
    rewrite app_nil_r. replace (hi - lo)%nat with (S (hi - S lo)) by lia. done.
Qed.

Lemma balanced_end_ids (lo hi : nat) (l : list anninfo) :
  balanced lo hi l → end_ids l ≡ₚ seq lo (hi - lo).
Proof.
  unfold end_ids.
  induction 1 as [n|lo mid hi l1 l2 H1 IH1 H2 IH2|lo hi t f s e l H1 IH1].
  - by rewrite Nat.sub_diag.
  - apply balanced_le in H1, H2. rewrite omap_app, IH1, IH2.
    replace (hi - lo)%nat with ((mid - lo) + (hi - mid))%nat by lia.
    rewrite seq_app. by replace (lo + (mid - lo))%nat with mid by lia.
  - apply balanced_le in H1. simpl. rewrite omap_app, IH1. simpl.
    replace (hi - lo)%nat with (S (hi - S lo)) by lia. simpl.
    by rewrite Permutation_app_comm.
Qed.

Lemma balanced_starts_first (lo hi : nat) (l : list anninfo) :
  balanced lo hi l → starts_first l.
Proof.
  induction 1 as [n|lo mid hi l1 l2 H1 IH1 H2 IH2|lo hi t f s e' l H1 IH1];
    intros j i e Hj.
  - done.
  - apply lookup_app_Some in Hj as [Hj|[Hlen Hj]].
    + destruct (IH1 _ _ _ Hj) as (k & a & Hk & Ha & Hid).
      exists k, a. split; [done|]. split; [|done]. by apply lookup_app_l_Some.
    + destruct (IH2 _ _ _ Hj) as (k & a & Hk & Ha & Hid).
      exists (length l1 + k)%nat, a. split; [lia|]. split; [|done].
      by rewrite lookup_app_r, Nat.add_comm, Nat.add_sub by lia.
  - destruct j as [|j]; [done|]. simpl in Hj.
    apply lookup_app_Some in Hj as [Hj|[Hlen Hj]].
    + destruct (IH1 _ _ _ Hj) as (k & a & Hk & Ha & Hid).
      exists (S k), a. split; [lia|]. split; [|done]. simpl.
      by apply lookup_app_l_Some.
    + exists 0%nat, (StartInfo t f lo s None). split; [lia|]. split; [done|].
      destruct (j - length l)%nat; [|done]. simpl in Hj. by injection Hj as -> _.
Qed.

(** *** The pairing loops *)

Lemma index_starts_count (evs : list anninfo) (n : nat) (m : gmap nat anninfo) :
  (index_starts evs n m).1 = (n + length (start_ids evs))%nat.
Proof.
  revert n m. induction evs as [|[t f i s e|i e] evs IH]; intros n m; simpl.
  - lia.
  - rewrite IH. lia.
  - apply IH.
Qed.

Lemma index_starts_map (evs : list anninfo) (n : nat) (m : gmap nat anninfo) :
  map_Forall (λ _ a, is_start a) m →
  map_Forall (λ _ a, is_start a) (index_starts evs n m).2
  ∧ ∀ i, (i ∈ start_ids evs ∨ is_Some (m !! i)) →
         is_Some ((index_starts evs n m).2 !! i).
Proof.
  revert n m. induction evs as [|[t f i s e|i e] evs IH]; intros n m Hm; simpl.
  - split; [done|]. intros i [Hi|Hi]; [by apply elem_of_nil in Hi | done].
  - destruct (IH (n + 1)%nat (<[i:=StartInfo t f i s e]> m)) as [IH1 IH2].
    { apply map_Forall_insert_2; [by eexists | done]. }
    split; [done|]. intros j Hj. apply IH2.
    destruct Hj as [Hj|Hj].
    + apply elem_of_cons in Hj as [->|Hj]; [right|by left].
      rewrite lookup_insert_eq. by eexists.
    + right. by apply lookup_insert_is_Some'; right.
  - destruct (IH n m Hm) as [IH1 IH2]. split; [done|]. apply IH2.
Qed.

Lemma set_end_ended (a : anninfo) (e : nat) :
  is_start a → is_start (set_end a e) ∧ ended (set_end a e).
Proof. destruct a; intros [? [=]]; split; [by eexists | done]. Qed.

Lemma assign_ends_ok (evs : list anninfo) :
  ∀ (n : nat) (m : gmap nat anninfo),
    map_Forall (λ _ a, is_start a) m →
    (∀ i, i ∈ end_ids evs → is_Some (m !! i)) →
    ∃ m' : gmap nat anninfo,
      assign_ends evs n m = Ok ((n + length (end_ids evs))%nat, m')
      ∧ (∀ i a, m !! i = Some a → ended a → ∃ a', m' !! i = Some a' ∧ ended a')
      ∧ (∀ i, i ∈ end_ids evs → ∃ a', m' !! i = Some a' ∧ ended a').
Proof.
  induction evs as [|[t f i s e|i e] evs IH]; intros n m Hm Hdom; simpl.
  - exists m. rewrite Nat.add_0_r. split; [done|]. split; [eauto|].
    intros i Hi. by apply elem_of_nil in Hi.
  - apply (IH n m Hm Hdom).
  - destruct (Hdom i) as [a Ha]; [by left|]. rewrite Ha.
    destruct (set_end_ended a e) as [Hs He]; [by apply (Hm i)|].
    destruct (IH (n + 1)%nat (<[i:=set_end a e]> m)) as (m' & Hrun & Hkeep & Hends).
    { by apply map_Forall_insert_2. }
    { intros j Hj. apply lookup_insert_is_Some'. right. apply Hdom. by right. }
    exists m'. split; [rewrite Hrun; do 2 f_equal; lia|]. split.
    + intros j b Hb Hbe. destruct (decide (i = j)) as [->|Hne].
      * apply (Hkeep j (set_end a e)); [by rewrite lookup_insert_eq | done].
      * apply (Hkeep j b); [by rewrite lookup_insert_ne | done].
    + intros j Hj. apply elem_of_cons in Hj as [->|Hj]; [|by apply Hends].
      apply (Hkeep i (set_end a e)); [by rewrite lookup_insert_eq | done].
Qed.

Lemma assign_ends_count (evs : list anninfo) :
  ∀ (n nend : nat) (m m' : gmap nat anninfo),
    assign_ends evs n m = Ok (nend, m') → nend = (n + length (end_ids evs))%nat.
Proof.
  induction evs as [|[t f i s e|i e] evs IH]; intros n nend m m'; simpl.
  - intros [= <- _]. lia.
  - apply IH.
  - destruct (m !! i); [|done]. intros Hrun%IH. lia.
Qed.

Lemma mapM_result_ok {A B} (f : A → result B) (l : list A) :
  (∀ x, x ∈ l → ∃ y, f x = Ok y) →
  ∃ ys, mapM f l = Ok ys ∧ length ys = length l.
Proof.
  induction l as [|x l IH]; intros Hf; simpl.
  - by exists [].
  - destruct (Hf x) as [y Hy]; [by left|]. rewrite Hy. simpl.
    destruct IH as (ys & Hys & Hlen); [intros; apply Hf; by right|].
    rewrite Hys. simpl. exists (y :: ys). split; [done|]. simpl. by rewrite Hlen.
Qed.

(** Pairing succeeds on every balanced event list that starts at id 0. *)
Lemma pair_events_balanced (d : docinfo) (n : nat) :
  balanced 0 n (anninfos d) →
  ∃ anns, pair_events d = Ok (mkMarkupDocument (text d) anns) ∧ length anns = n.
Proof.
  intros Hbal. unfold pair_events.
  pose proof (balanced_start_ids _ _ _ Hbal) as Hs.
  pose proof (balanced_end_ids _ _ _ Hbal) as He. rewrite Nat.sub_0_r in Hs, He.
  pose proof (index_starts_count (anninfos d) 0 ∅) as Hn.
  destruct (index_starts_map (anninfos d) 0 ∅) as [Hm1 Hm2];
    [apply map_Forall_empty|].
  destruct (index_starts (anninfos d) 0 ∅) as [nstart m]. simpl in *.
  rewrite Hs, length_seq in Hn. subst nstart.
  destruct (assign_ends_ok (anninfos d) 0 m Hm1) as (m' & Hrun & _ & Hends).
  { intros i Hi. apply Hm2. left. by rewrite Hs, <- He. }
  assert (Hne : length (end_ids (anninfos d)) = n) by by rewrite He, length_seq.
  rewrite Hrun, Hne. simpl.
  rewrite bool_decide_eq_true_2 by done.
  destruct (mapM_result_ok (add_one m') (seq 0 n)) as (anns & Hanns & Hlen).
  { intros i Hi. rewrite <- He in Hi. destruct (Hends i Hi) as (a & Ha & Hended).
    unfold add_one. rewrite Ha. destruct a as [t f ? s [e|]|]; [|done..].
    by eexists. }
  rewrite Hanns. simpl. exists anns. split; [done|]. by rewrite Hlen, length_seq.
Qed.

Lemma count_occ_seq (lo n i : nat) :
  count_occ Nat.eq_dec (seq lo n) i
  = if bool_decide (lo ≤ i < lo + n)%nat then 1%nat else 0%nat.
Proof.
  revert lo. induction n as [|n IH]; intros lo; simpl.
  - rewrite bool_decide_eq_false_2; [done | lia].
  - rewrite IH. destruct (Nat.eq_dec lo i) as [->|Hne].
    + rewrite bool_decide_eq_false_2 by lia. by rewrite bool_decide_eq_true_2 by lia.
    + repeat case_bool_decide; (done || lia).
Qed.

Lemma assign_ends_raise (evs : list anninfo) :
  ∀ (n : nat) (m : gmap nat anninfo) (e : exn),
    assign_ends evs n m = Raise e → e = KeyError.
Proof.
  induction evs as [|[t f i s e'|i e'] evs IH]; intros n m e; simpl.
  - done.
  - apply IH.
  - destruct (m !! i); [apply IH | by intros [= <-]].
Qed.

(** C8: the walk of any tree appends as many start events as end events,
    each id below the final counter exactly once as a start and once as an
    end and no other id at all, so the loader's assertion holds and [load]
    returns; and on any event list whose counts differ the pairing code
    raises, as a missing key or as the failed assertion. *)
Theorem pairing_invariant (bs : node) :
  let d := walktree bs docinfo0 in
  let evs := anninfos d in
  length (start_ids evs) = length (end_ids evs)
  ∧ (∀ i : nat,
       count_occ Nat.eq_dec (start_ids evs) i
         = (if bool_decide (i < curid d)%nat then 1%nat else 0%nat)
       ∧ count_occ Nat.eq_dec (end_ids evs) i
         = (if bool_decide (i < curid d)%nat then 1%nat else 0%nat))
  ∧ (∃ anns, load_tree bs = Ok (mkMarkupDocument (text d) anns)
             ∧ length anns = curid d)
  ∧ (∀ d' : docinfo,
       length (start_ids (anninfos d')) ≠ length (end_ids (anninfos d')) →
       pair_events d' = Raise KeyError ∨ pair_events d' = Raise AssertionError).
Proof.
  intros d evs.
  destruct (walktree_appends bs docinfo0) as (evs' & Hev & Hbal & _).
  simpl in Hev, Hbal. fold d in Hev, Hbal. fold evs in Hev. subst evs'.
  pose proof (balanced_start_ids _ _ _ Hbal) as Hs.
  pose proof (balanced_end_ids _ _ _ Hbal) as He. rewrite Nat.sub_0_r in Hs, He.
  assert (Hocc : ∀ i, count_occ Nat.eq_dec (seq 0 (curid d)) i
                      = if bool_decide (i < curid d)%nat then 1%nat else 0%nat).
  { intros i. rewrite count_occ_seq. repeat case_bool_decide; (done || lia). }
  split; [by rewrite Hs, He|]. split; [|split].
  - intros i. split; [by rewrite Hs|].
    rewrite <- Hocc. by apply Permutation_count_occ.
  - by apply pair_events_balanced.
  - intros d' Hneq. unfold pair_events.
    pose proof (index_starts_count (anninfos d') 0 ∅) as Hn.
    destruct (index_starts (anninfos d') 0 ∅) as [nstart m]. simpl in Hn.
    destruct (assign_ends (anninfos d') 0 m) as [[nend m']|e] eqn:Hrun; simpl.
    + right. apply assign_ends_count in Hrun.
      rewrite bool_decide_eq_false_2; [done | lia].
    + left. by apply assign_ends_raise in Hrun as ->.
Qed.

Lemma pairing_invariant_witness :
  length (start_ids [StartInfo "p" (VMap []) 0 0 None]) ≠
    length (end_ids [StartInfo "p" (VMap []) 0 0 None])
  ∧ (pair_events (mkDocinfo [StartInfo "p" (VMap []) 0 0 None] 0 1 "") = Raise KeyError
     ∨ pair_events (mkDocinfo [StartInfo "p" (VMap []) 0 0 None] 0 1 "")
       = Raise AssertionError).
Proof.
  split; [discriminate|].
  pose proof (pairing_invariant (Tag "p" (VMap []) [])) as Hinv. cbv zeta in Hinv.
  destruct Hinv as (_ & _ & _ & Hflag).
  apply (Hflag (mkDocinfo [StartInfo "p" (VMap []) 0 0 None] 0 1 "")).
  discriminate.
Defined.

(** C9: in the event list of any walk the start events carry the ids
    [0, 1, ...] in list order, which is the order of the tags in the
    document, parents first; every end event has the start event of its id
    at an earlier position; and the second pairing loop finds the start dict
    of every end event. *)
Theorem ids_in_preorder (bs : node) :
  let d := walktree bs docinfo0 in
  let evs := anninfos d in
  start_ids evs = seq 0 (curid d)
  ∧ start_types evs = tags_preorder bs
  ∧ starts_first evs
  ∧ ∃ (nend : nat) (id2anninfo : gmap nat anninfo),
      assign_ends evs 0 (index_starts evs 0 ∅).2 = Ok (nend, id2anninfo).
Proof.
  intros d evs.
  destruct (walktree_appends bs docinfo0) as (evs' & Hev & Hbal & Hty).
  simpl in Hev, Hbal. fold d in Hev, Hbal. fold evs in Hev. subst evs'.
  pose proof (balanced_start_ids _ _ _ Hbal) as Hs.
  pose proof (balanced_end_ids _ _ _ Hbal) as He. rewrite Nat.sub_0_r in Hs, He.
  split; [done|]. split; [done|]. split; [by eapply balanced_starts_first|].
  destruct (index_starts_map evs 0 ∅) as [Hm1 Hm2]; [apply map_Forall_empty|].
  destruct (assign_ends_ok evs 0 _ Hm1) as (m' & Hrun & _).
  { intros i Hi. apply Hm2. left. by rewrite Hs, <- He. }
  eauto.
Qed.

(** *** Newlines around block-level tags *)

Lemma str_app_nil_r (s : string) : s +:+ "" = s.
Proof. induction s as [|a s IH]; str_simpl; [done | by rewrite IH]. Qed.

Lemma endswith_nl_app (s : string) : endswith_nl (s +:+ NL) = true.
Proof.
  induction s as [|a s IH]; [done|]. rewrite str_app_cons. simpl.
  rewrite IH. by destruct (s +:+ NL) eqn:E; [destruct s|].
Qed.

Lemma newline_for_block (name : string) (d : docinfo) :
  name ∈ nlels →
  newline_for name d
  = mkDocinfo (anninfos d) (curoffset d + String.length (pad (text d)))
      (curid d) (text d +:+ pad (text d)).
Proof.
  intros Hin. unfold newline_for, pad. rewrite (bool_decide_eq_true_2 _ Hin).
  destruct (endswith_nl (text d)); simpl; [|done].
  rewrite str_app_nil_r, Nat.add_0_r. by destruct d.
Qed.

(** C2, as stated, fails: a [p] element visited with the empty buffer gets
    its newline, and its start event is recorded at offset 1. *)
Lemma newline_into_empty_buffer :
  walktree (Tag "p" (VMap []) [NavigableString "A"]) docinfo0
  = mkDocinfo [StartInfo "p" (VMap []) 0 1 None; EndInfo 0 3] 3 1
      (NL +:+ "A" +:+ NL)
  ∧ ¬ no_newline_into_empty_buffer.
Proof.
  split; [by vm_compute|]. intros Hclaim.
  assert (Hin : "p" ∈ nlels) by (apply (bool_decide_unpack _); by vm_compute).
  specialize (Hclaim "p" (VMap []) docinfo0 Hin eq_refl). by vm_compute in Hclaim.
Qed.

(** C2, amended: for an element with a block-level tag the walk appends a
    newline before the start event exactly when the buffer does not end in
    one, and again after the children under the same test.  The empty
    buffer does not end in a newline, so it gets one; and after such an
    element the buffer always ends in a newline. *)
Theorem block_newline_rule (name : string) (attrs : value)
    (children : list node) (d : docinfo) :
  name ∈ nlels →
  let before := String.length (pad (text d)) in
  let opened :=
    mkDocinfo
      (anninfos d ++ [StartInfo name attrs (curid d) (curoffset d + before) None])
      (curoffset d + before) (curid d + 1) (text d +:+ pad (text d)) in
  let inner := fold_left (λ d child, walktree child d) children opened in
  let after := String.length (pad (text inner)) in
  walktree (Tag name attrs children) d
  = mkDocinfo (anninfos inner ++ [EndInfo (curid d) (curoffset inner + after)])
      (curoffset inner + after) (curid inner) (text inner +:+ pad (text inner))
  ∧ (text d = "" → text opened = NL ∧ before = 1%nat)
  ∧ (endswith_nl (text d) = true → text opened = text d ∧ before = 0%nat)
  ∧ endswith_nl (text (walktree (Tag name attrs children) d)) = true.
Proof.
  intros Hin before opened inner after.
  assert (Hwalk : walktree (Tag name attrs children) d
    = mkDocinfo (anninfos inner ++ [EndInfo (curid d) (curoffset inner + after)])
        (curoffset inner + after) (curid inner) (text inner +:+ pad (text inner))).
  { rewrite walktree_tag. cbv zeta. by rewrite !newline_for_block by done. }
  split; [done|]. split; [|split].
  - intros Hempty. unfold opened, before, pad. simpl. by rewrite Hempty.
  - intros Hends. unfold opened, before, pad. simpl. rewrite Hends.
    by rewrite str_app_nil_r.
  - rewrite Hwalk. simpl. unfold pad.
    destruct (endswith_nl (text inner)) eqn:Hends.
    + by rewrite str_app_nil_r.
    + apply endswith_nl_app.
Qed.

Lemma block_newline_rule_witness :
  "div" ∈ nlels
  ∧ text (walktree (Tag "div" (VMap []) []) docinfo0) = NL
  ∧ endswith_nl (text (walktree (Tag "div" (VMap []) []) docinfo0)) = true.
Proof.
  assert (Hin : "div" ∈ nlels) by (apply (bool_decide_unpack _); by vm_compute).
  pose proof (block_newline_rule "div" (VMap []) [] docinfo0 Hin) as Hrule.
  cbv zeta in Hrule. destruct Hrule as (Hwalk & _ & _ & Hends).
  split; [exact Hin|]. split; [by rewrite Hwalk | exact Hends].
Defined.

(** ** Content sniffing *)

Section Auto_detect.
Context `{Collaborators}.

Lemma startswith_brace (a : ascii) (r : string) :
  startswith "{" (String a r) = bool_decide (String a "" = "{").
Proof.
  change (startswith "{" (String a r)) with (Ascii.eqb "{" a && true).
  rewrite andb_true_r. destruct (Ascii.eqb_spec "{" a) as [<-|Hne].
  - symmetry. by apply bool_decide_eq_true_2.
  - symmetry. apply bool_decide_eq_false_2. intros [= ->]. by apply Hne.
Qed.

Lemma startswith_take (s : string) :
  startswith "{" s = bool_decide (str_take 1 s = "{").
Proof. destruct s as [|a r]; [by vm_compute|]. apply startswith_brace. Qed.

(** The sniff of a file reads one character, or none from an empty file. *)
Lemma sniff_reads_one (content : string) :
  tf_read 1 (tf_open content)
  = (str_take 1 content, mkTextfile content (Nat.min 1 (String.length content))).
Proof. by destruct content. Qed.

(** C4: [determine_loader] calls the JSON loader when the first character
    of the source is ["{"] and the msgpack loader otherwise, with the
    arguments it was given.  For an in-memory source it looks at element
    [0]; for a file it opens the file, reads one character and lets go of
    the handle, and the loader it then calls opens the file again and
    decodes the whole content. *)
Theorem determine_loader_sniffs (cls : clazz) (from_ext : option filespec)
    (from_mem : option buffer) (gzip : bool) :
  (buffer_truthy from_mem = true →
     determine_loader cls from_ext from_mem gzip
     = if starts_with_brace from_mem
       then JsonSerializer.load cls from_ext from_mem gzip
       else MsgPackSerializer.load cls from_ext from_mem)
  ∧ (∀ p content : string,
       buffer_truthy from_mem = false →
       open_arg from_ext = Ok p → open_rt p = Ok content →
       (tf_read 1 (tf_open content)).1 = str_take 1 content
       ∧ (tf_pos (tf_read 1 (tf_open content)).2 ≤ 1)%nat
       ∧ determine_loader cls from_ext from_mem gzip
         = if startswith "{" content
           then JsonSerializer.load cls from_ext from_mem gzip
           else MsgPackSerializer.load cls from_ext from_mem)
  ∧ (∀ (ext : filespec) (p content : string),
       buffer_truthy from_mem = false → from_ext = Some ext →
       is_url ext = false → open_arg from_ext = Ok p →
       (if gzip then gopen_rt p else open_rt p) = Ok content →
       JsonSerializer.load cls from_ext from_mem gzip
       = json_loads (BufStr content) ≫= from_dict cls)
  ∧ (∀ (ext : filespec) (p : string) (content : list Byte.byte),
       buffer_truthy from_mem = false → from_ext = Some ext →
       is_url ext = false → open_arg from_ext = Ok p → open_rb p = Ok content →
       MsgPackSerializer.load ClsDocument from_ext from_mem
       = MsgPackSerializer.stream2document (msgpack_values content)
           ≫= λ doc, Ok (IDocument doc)).
Proof.
  split; [|split; [|split]].
  - intros Hmem. unfold determine_loader. rewrite Hmem.
    destruct from_mem as [[[|a r]|[|x b]]|]; try done.
    unfold starts_with_brace. by rewrite startswith_brace.
  - intros p content Hmem Hp Hopen. rewrite sniff_reads_one.
    split; [done|]. split; [apply Nat.le_min_l|].
    rewrite startswith_take.
    unfold determine_loader. rewrite Hmem, Hp.
    change (Ok p ≫= ?f) with (f p). cbv beta. rewrite Hopen.
    change (Ok content ≫= ?f) with (f content). cbv beta.
    by rewrite sniff_reads_one.
  - intros ext p content Hmem -> Hurl Hp Hopen.
    unfold JsonSerializer.load. rewrite Hurl.
    change (Ok from_mem ≫= ?f) with (f from_mem). cbv beta. rewrite Hmem, Hp.
    change (Ok p ≫= ?f) with (f p). cbv beta.
    destruct gzip; by rewrite Hopen.
  - intros ext p content Hmem -> Hurl Hp Hopen.
    unfold MsgPackSerializer.load. rewrite Hurl.
    change (Ok ?x ≫= ?f) with (f x). cbv beta.
    change (Ok from_mem ≫= ?f) with (f from_mem). cbv beta. rewrite Hmem, Hp.
    change (Ok p ≫= ?f) with (f p). cbv beta. by rewrite Hopen.
Qed.

End Auto_detect.

Lemma determine_loader_sniffs_witness :
  @determine_loader sample_collaborators ClsDocument None (Some (BufStr "{}")) false
  = @JsonSerializer.load sample_collaborators ClsDocument None (Some (BufStr "{}")) false
  ∧ @determine_loader sample_collaborators ClsDocument (Some (FsStr "doc.bdoc")) None false
    = Ok (IDocument (mkDocument (VStr "p") (VStr "") (VMap []) [])).
Proof.
  split.
  - apply (@determine_loader_sniffs sample_collaborators ClsDocument None
             (Some (BufStr "{}")) false).
    reflexivity.
  - pose proof (@determine_loader_sniffs sample_collaborators ClsDocument
                  (Some (FsStr "doc.bdoc")) None false) as (_ & Hfile & Hjson & _).
    destruct (Hfile "doc.bdoc" "{}") as (_ & _ & ->); [reflexivity..|].
    simpl. rewrite (Hjson (FsStr "doc.bdoc") "doc.bdoc" "{}"); reflexivity.
Defined.

(** * Further properties *)

(** ** Handler resolution for every target *)

Lemma extensions_truthy (ext fmt : string) :
  EXTENSIONS !! ext = Some fmt → fmt_truthy (Some fmt) = true.
Proof.
  intros Hin%elem_of_map_to_list. revert Hin. vm_compute map_to_list. intros Hin.
  repeat (apply elem_of_cons in Hin as [[= _ ->]|Hin]; [done|]).
  by apply elem_of_nil in Hin.
Qed.

Lemma extensions_values (ext fmt : string) :
  EXTENSIONS !! ext = Some fmt →
  (ext, fmt) ∈ [("bdocjs", "json"); ("bdocym", "yaml");
                ("bdocym.gz", "text/bdocym+gzip"); ("bdoc.gz", "text/bdocjs+gzip");
                ("bdoc", "jsonormsgpack"); ("bdocjs.gz", "text/bdocjs+gzip");
                ("bdocjson", "json"); ("bdocmp", "msgpack")].
Proof.
  intros Hin%elem_of_map_to_list. revert Hin. vm_compute map_to_list. intros Hin.
  repeat (apply elem_of_cons in Hin as [[= -> ->]|Hin];
          [rewrite !elem_of_cons; tauto|]).
  by apply elem_of_nil in Hin.
Qed.

Lemma iff_by_decide (P Q : Prop) `{Decision P, Decision Q} :
  bool_decide P = bool_decide Q → (P ↔ Q).
Proof.
  intros Heq. by rewrite <- (bool_decide_spec P), <- (bool_decide_spec Q), Heq.
Qed.

(** With no format given, a path resolves through its extension key. *)
Lemma get_handler_path (filespec : option filespec) (wf : string)
    (fmt : option string) (handlers : gmap string handler)
    (saveload what : string) (h : handler) :
  fmt_truthy fmt = false → path_of filespec = Some wf →
  get_handler filespec fmt handlers saveload what = Ok h
  ↔ ∃ f, EXTENSIONS !! extension_key wf = Some f ∧ handlers !! f = Some h.
Proof.
  intros Hfmt Hpath. unfold get_handler. rewrite Hfmt.
  assert (Hempty : EXTENSIONS !! extension_key "" = None) by by vm_compute.
  destruct (filespec_falsy filespec) eqn:Hfalsy.
  { destruct filespec as [[s|s|u]|]; try done. simpl in Hfalsy, Hpath.
    apply bool_decide_eq_true_1 in Hfalsy as ->. injection Hpath as <-.
    split; [done|]. intros (f & Hf & _). congruence. }
  assert (Hwf : (match filespec with
                 | Some (FsPath s) | Some (FsStr s) => Ok s
                 | _ => Raise (Exception
                     ("Could not determine how to " +:+ saveload +:+ " " +:+ what +:+
                      " for format " +:+ fstr fmt +:+
                      " in module gatenlp.serialization.default"))
                 end) = Ok wf).
  { destruct filespec as [[s|s|u]|]; simpl in Hpath; by simplify_eq. }
  rewrite Hwf. change (Ok wf ≫= ?g) with (g wf). cbv beta zeta.
  destruct (EXTENSIONS !! extension_key wf) as [f|] eqn:Hext.
  - rewrite (extensions_truthy _ _ Hext). simpl.
    destruct (handlers !! f) as [h'|] eqn:Hh.
    + split; [intros [= ->]; eauto|]. intros (f' & [= <-] & Hf'). congruence.
    + split; [done|]. intros (f' & [= <-] & Hf'). congruence.
  - split; [done|]. by intros (f & Hf & _).
Qed.

(** X1: [get_handler] returns a handler in exactly two ways: an explicit
    format that is a key of the handler table, whatever the target is; or,
    with no format, a [str] or path-like target whose extension key is in
    [EXTENSIONS] with a format that is a key of the handler table.  In every
    other case it raises. *)
Theorem get_handler_resolution (filespec : option filespec) (fmt : option string)
    (handlers : gmap string handler) (saveload what : string) (h : handler) :
  get_handler filespec fmt handlers saveload what = Ok h
  ↔ (∃ f, fmt = Some f ∧ f ≠ "" ∧ handlers !! f = Some h)
    ∨ (fmt_truthy fmt = false
       ∧ ∃ wf f, path_of filespec = Some wf
                 ∧ EXTENSIONS !! extension_key wf = Some f
                 ∧ handlers !! f = Some h).
Proof.
  destruct (fmt_truthy fmt) eqn:Hfmt.
  - destruct fmt as [f|]; [|done]. unfold get_handler. rewrite Hfmt. simpl.
    assert (Hf : f ≠ "").
    { simpl in Hfmt. apply negb_true_iff, bool_decide_eq_false_1 in Hfmt. done. }
    destruct (handlers !! f) as [h'|] eqn:Hh.
    + split; [intros [= ->]; left; eauto|].
      intros [(f' & [= <-] & _ & Hh')|[? _]]; congruence.
    + split; [done|]. intros [(f' & [= <-] & _ & Hh')|[? _]]; congruence.
  - destruct (path_of filespec) as [wf|] eqn:Hpath.
    + rewrite (get_handler_path _ wf) by done. split.
      * intros (f & Hf & Hh). right. split; [done|]. eauto.
      * intros [(f & -> & Hf & _)|[_ (wf' & f & [= <-] & Hf & Hh)]]; [|eauto].
        simpl in Hfmt. apply negb_false_iff, bool_decide_eq_true_1 in Hfmt. done.
    + split.
      * unfold get_handler. rewrite Hfmt.
        destruct filespec as [[s|s|u]|]; try done.
      * intros [(f & -> & Hf & _)|[_ (wf' & f & [=] & _)]].
        simpl in Hfmt. apply negb_false_iff, bool_decide_eq_true_1 in Hfmt. done.
Qed.

(** X2: every path whose extension key is in [EXTENSIONS] has a document
    loader: [get_document_loader] returns for it. *)
Theorem mapped_extension_has_loader (filespec : option filespec) (wf : string)
    (fmt : option string) :
  fmt_truthy fmt = false → path_of filespec = Some wf →
  is_Some (EXTENSIONS !! extension_key wf) →
  ∃ h, get_document_loader filespec fmt = Ok h.
Proof.
  intros Hfmt Hpath [f Hf]. unfold get_document_loader.
  assert (Hh : is_Some (DOCUMENT_LOADERS !! f)).
  { apply extensions_values in Hf.
    repeat (apply elem_of_cons in Hf as [[= _ ->]|Hf];
            [eexists; vm_compute; reflexivity|]).
    by apply elem_of_nil in Hf. }
  destruct Hh as [h Hh]. exists h. apply (get_handler_path _ wf); eauto.
Qed.

Lemma mapped_extension_has_loader_witness :
  ∃ h, get_document_loader (Some (FsPath "corpus/doc.bdoc")) None = Ok h.
Proof.
  apply (mapped_extension_has_loader (Some (FsPath "corpus/doc.bdoc"))
           "corpus/doc.bdoc" None); [reflexivity | reflexivity | eexists; vm_compute; reflexivity].
Defined.

(** X3: among the paths whose extension key is in [EXTENSIONS], the ones
    without a document saver are exactly those with the keys ["bdocym.gz"]
    and ["bdoc"]. *)
Theorem mapped_extension_without_saver (filespec : option filespec) (wf : string)
    (fmt : option string) :
  fmt_truthy fmt = false → path_of filespec = Some wf →
  is_Some (EXTENSIONS !! extension_key wf) →
  raises (get_document_saver filespec fmt)
  ↔ extension_key wf = "bdocym.gz" ∨ extension_key wf = "bdoc".
Proof.
  intros Hfmt Hpath [f Hf]. unfold get_document_saver.
  assert (Hraise : raises (get_handler filespec fmt DOCUMENT_SAVERS "save" "document")
                   ↔ DOCUMENT_SAVERS !! f = None).
  { destruct (get_handler filespec fmt DOCUMENT_SAVERS "save" "document") as [h|e] eqn:Hg.
    - apply (get_handler_path _ wf) in Hg as (f' & Hf' & Hh); [|done..].
      simpl. split; [done|]. congruence.
    - simpl. split; [intros _|done].
      destruct (DOCUMENT_SAVERS !! f) as [h|] eqn:Hh; [|done].
      assert (Hok : get_handler filespec fmt DOCUMENT_SAVERS "save" "document" = Ok h)
        by (apply (get_handler_path _ wf); eauto).
      congruence. }
  rewrite Hraise. clear Hraise. apply extensions_values in Hf.
  repeat (apply elem_of_cons in Hf as [[= Hk ->]|Hf];
          [rewrite Hk; refine (iff_by_decide _ _ _); vm_compute; reflexivity|]).
  by apply elem_of_nil in Hf.
Qed.

Lemma mapped_extension_without_saver_witness :
  raises (get_document_saver (Some (FsStr "doc.bdoc")) None)
  ↔ extension_key "doc.bdoc" = "bdocym.gz" ∨ extension_key "doc.bdoc" = "bdoc".
Proof.
  apply (mapped_extension_without_saver (Some (FsStr "doc.bdoc")) "doc.bdoc" None);
    [reflexivity | reflexivity | eexists; vm_compute; reflexivity].
Defined.

(** X4: a change log is saved and loaded as JSON only: for a path whose
    extension key is in [EXTENSIONS], [get_changelog_saver] and
    [get_changelog_loader] return exactly for the keys ["bdocjs"],
    ["bdocjson"], ["bdoc.gz"] and ["bdocjs.gz"], and raise for the others. *)
Theorem changelog_handlers_json_only (filespec : option filespec) (wf : string)
    (fmt : option string) :
  fmt_truthy fmt = false → path_of filespec = Some wf →
  is_Some (EXTENSIONS !! extension_key wf) →
  let json_key := extension_key wf ∈ ["bdocjs"; "bdocjson"; "bdoc.gz"; "bdocjs.gz"] in
  ((∃ h, get_changelog_saver filespec fmt = Ok h) ↔ json_key)
  ∧ ((∃ h, get_changelog_loader filespec fmt = Ok h) ↔ json_key).
Proof.
  intros Hfmt Hpath [f Hf] json_key. unfold json_key, get_changelog_saver,
    get_changelog_loader.
  assert (Hres : ∀ handlers sl w,
    (∃ h, get_handler filespec fmt handlers sl w = Ok h) ↔ is_Some (handlers !! f)).
  { intros handlers sl w. split.
    - intros [h Hg]. apply (get_handler_path _ wf) in Hg as (f' & Hf' & Hh); [|done..].
      exists h. congruence.
    - intros [h Hh]. exists h. apply (get_handler_path _ wf); eauto. }
  rewrite !Hres. clear Hres. apply extensions_values in Hf.
  repeat (apply elem_of_cons in Hf as [[= Hk ->]|Hf];
          [rewrite Hk; split; refine (iff_by_decide _ _ _); vm_compute; reflexivity|]).
  by apply elem_of_nil in Hf.
Qed.

Lemma changelog_handlers_json_only_witness :
  ((∃ h, get_changelog_saver (Some (FsStr "log.bdocmp")) None = Ok h)
   ↔ extension_key "log.bdocmp" ∈ ["bdocjs"; "bdocjson"; "bdoc.gz"; "bdocjs.gz"])
  ∧ ((∃ h, get_changelog_loader (Some (FsStr "log.bdocmp")) None = Ok h)
     ↔ extension_key "log.bdocmp" ∈ ["bdocjs"; "bdocjson"; "bdoc.gz"; "bdocjs.gz"]).
Proof.
  apply (changelog_handlers_json_only (Some (FsStr "log.bdocmp")) "log.bdocmp" None);
    [reflexivity | reflexivity | eexists; vm_compute; reflexivity].
Defined.

Lemma rfind_dir_prefix (dir : string) :
  dir_prefix dir = true → rfind "/"%char dir = Z.of_nat (String.length dir) - 1.
Proof.
  unfold dir_prefix. destruct (str_last dir) as [a|] eqn:Hlast.
  - intros ->%Ascii.eqb_eq. apply str_last_snoc in Hlast as [pre ->].
    rewrite rfind_app, str_length_app. simpl. lia.
  - intros _. destruct dir as [|a dir]; [done|]. exfalso.
    clear -Hlast. revert a Hlast. induction dir as [|b dir IH]; intros a; [done|].
    apply IH.
Qed.

(** X5: a file whose name is a dot followed by a name without further dots
    (a hidden file such as [.bdocmp], alone or in a directory) has no
    extension for [os.path.splitext]; its extension key is empty and
    [get_handler] raises when no format is given, whatever the handler
    table. *)
Theorem hidden_file_has_no_handler (dir name : string) (fmt : option string)
    (handlers : gmap string handler) (saveload what : string) :
  dir_prefix dir = true →
  rfind "."%char name = -1 → rfind "/"%char name = -1 →
  fmt_truthy fmt = false →
  extension_key (dir +:+ String "."%char name) = ""
  ∧ raises (get_handler (Some (FsStr (dir +:+ String "."%char name))) fmt
              handlers saveload what).
Proof.
  intros Hdir Hn1 Hn2 Hfmt.
  assert (Hkey : extension_key (dir +:+ String "."%char name) = "").
  { unfold extension_key, splitext.
    rewrite !rfind_app. simpl. rewrite Hn1, Hn2. simpl.
    rewrite (rfind_dir_prefix dir Hdir).
    replace (Z.of_nat (String.length dir) + 0) with (Z.of_nat (String.length dir)) by lia.
    destruct (Z.ltb_spec (Z.of_nat (String.length dir) - 1) (Z.of_nat (String.length dir)));
      [|lia].
    replace (Z.to_nat (Z.of_nat (String.length dir) - (Z.of_nat (String.length dir) - 1)))
      with 1%nat by lia.
    simpl. destruct (Z.ltb_spec (Z.of_nat (String.length dir) - 1 + 1)
                       (Z.of_nat (String.length dir))); [lia|]. done. }
  split; [done|].
  destruct (get_handler _ _ _ _ _) as [h|e] eqn:Hg; [|done].
  apply (get_handler_path _ (dir +:+ String "."%char name)) in Hg as (f & Hf & _);
    [|done..].
  rewrite Hkey in Hf. by vm_compute in Hf.
Qed.

Lemma hidden_file_has_no_handler_witness :
  extension_key "corpus/.bdocmp" = ""
  ∧ raises (get_handler (Some (FsStr "corpus/.bdocmp")) None DOCUMENT_SAVERS
              "save" "document").
Proof.
  apply (hidden_file_has_no_handler "corpus/" "bdocmp" None DOCUMENT_SAVERS
           "save" "document"); reflexivity.
Defined.

(** ** The msgpack reader on the wire layout *)

Lemma dict_store_fresh {A} (h : key) (k : value) (x : A) (d : pydict A) :
  Some h ∉ (λ kx, hash_key kx.1) <$> d → dict_store h k x d = d ++ [(k, x)].
Proof.
  induction d as [|[k' x'] d IH]; intros Hfresh; [done|]. simpl.
  rewrite fmap_cons, not_elem_of_cons in Hfresh. destruct Hfresh as [Hne Hfresh].
  rewrite bool_decide_eq_false_2 by done. by rewrite IH.
Qed.

Lemma keyed_by_snoc {A} (key_of : A → value) (d0 d : pydict A) (k : value) (x : A) :
  keyed_by key_of (d0 ++ (k, x) :: d) →
  k = key_of x ∧ (∃ h, hash_key k = Some h ∧ Some h ∉ (λ kx, hash_key kx.1) <$> d0)
  ∧ keyed_by key_of ((d0 ++ [(k, x)]) ++ d).
Proof.
  intros [Hall Hnd]. split; [|split].
  - rewrite Forall_app, Forall_cons in Hall. by destruct Hall as (_ & [? _] & _).
  - rewrite Forall_app, Forall_cons in Hall. destruct Hall as (_ & [_ [h Hh]] & _).
    exists h. split; [done|]. rewrite fmap_app, fmap_cons in Hnd. simpl in Hnd.
    apply NoDup_app in Hnd as (_ & Hdis & _). intros Hin.
    apply (Hdis _ Hin). rewrite <- Hh. by left.
  - by rewrite <- app_assoc.
Qed.

Lemma read_annotations_keyed (anns d0 : pydict Annotation) (u : stream) :
  keyed_by a_id (d0 ++ anns) →
  read_annotations (length anns) (flat_map ann_values (snd <$> anns) ++ u) d0
  = Ok (d0 ++ anns, u).
Proof.
  revert d0. induction anns as [|[k a] anns IH]; intros d0 Hk.
  - by rewrite app_nil_r.
  - apply keyed_by_snoc in Hk as (Hka & (h & Hh & Hfresh) & Hk). simpl in Hka.
    subst k. simpl. unfold dict_setitem. destruct a as [s e t i f]. simpl in *.
    rewrite Hh. simpl. rewrite dict_store_fresh by done.
    rewrite IH by done. by rewrite <- app_assoc.
Qed.

Lemma read_sets_keyed (sets d0 : pydict AnnotationSet) (u : stream) :
  keyed_by s_name (d0 ++ sets) →
  Forall (λ ks, s_name ks.2 ≠ VNone ∧ keyed_by a_id (s_annotations ks.2)) sets →
  read_sets (length sets) (flat_map set_values (snd <$> sets) ++ u) d0
  = Ok (d0 ++ sets, u).
Proof.
  revert d0. induction sets as [|[k s] sets IH]; intros d0 Hk Hsets.
  - by rewrite app_nil_r.
  - apply keyed_by_snoc in Hk as (Hks & (h & Hh & Hfresh) & Hk). simpl in Hks.
    subst k. apply Forall_cons in Hsets as [[Hname Hanns] Hsets]. simpl in Hname, Hanns.
    destruct s as [name nextid anns]. simpl in *.
    rewrite <- !app_assoc. simpl.
    assert (Hnorm : none_to_empty name = name) by by destruct name.
    rewrite Hnorm, Nat2Z.id. simpl.
    rewrite (read_annotations_keyed anns []) by done. simpl.
    unfold dict_setitem. rewrite Hh. simpl. rewrite dict_store_fresh by done.
    rewrite IH by done. by rewrite <- app_assoc.
Qed.

(** X6: [stream2document] rebuilds a document from its values laid out in
    the order of the wire format, whatever follows them: the same text,
    offset type and features, the same sets in the same order with their
    names and counters, and the same annotations.  It checks neither the
    types of the fields nor [start <= end]. *)
Theorem wire_layout_decodes (doc : Document) (rest : stream) :
  well_keyed doc → stream2document (document_values doc ++ rest) = Ok doc.
Proof.
  intros [Hk Hsets]. destruct doc as [ot txt feats sets]. simpl in *.
  unfold stream2document, document_values. simpl. rewrite Nat2Z.id. simpl.
  rewrite (read_sets_keyed sets []) by done. done.
Qed.

Lemma wire_layout_decodes_witness :
  well_keyed two_annotation_doc
  ∧ stream2document (document_values two_annotation_doc ++ [VStr "more"])
    = Ok two_annotation_doc.
Proof.
  assert (Hwk : well_keyed two_annotation_doc).
  { unfold well_keyed, keyed_by. simpl. split; [split|].
    - constructor; [split; [done | by eexists] | constructor].
    - apply NoDup_singleton.
    - constructor; [|constructor]. split; [done|]. simpl. split.
      + repeat (constructor; [split; [done | by eexists]|]). constructor.
      + apply (bool_decide_unpack _). by vm_compute. }
  split; [exact Hwk|].
  apply (wire_layout_decodes two_annotation_doc [VStr "more"] Hwk).
Defined.

(** *** What the reader consumes *)

Ltac cut_here p Hcut :=
  destruct p as [|? p]; [done|]; injection Hcut as <- Hcut.

Lemma read_annotations_consumes (n : nat) :
  ∀ (u : stream) (d r : pydict Annotation) (u' : stream),
    read_annotations n u d = Ok (r, u') →
    consumes (λ u, read_annotations n u d) u r u'.
Proof.
  induction n as [|n IH]; intros u d r u'.
  - intros [= <- <-]. exists []. split; [done|]. split; [done|].
    intros p q Hcut Hq. symmetry in Hcut. by apply app_eq_nil in Hcut as [_ ->].
  - simpl. destruct u as [|v1 [|v2 [|v3 [|v4 [|v5 u]]]]]; try done. simpl.
    destruct (dict_setitem d v4 _) as [d'|e] eqn:Hset; [|done]. simpl.
    intros (c & -> & Hmore & Hless)%IH.
    exists (v1 :: v2 :: v3 :: v4 :: v5 :: c). split; [done|]. split.
    + intros y. simpl. rewrite Hset. simpl. apply Hmore.
    + intros p q Hcut Hq. do 5 cut_here p Hcut.
      simpl. rewrite Hset. simpl. by eapply Hless.
Qed.

Lemma read_sets_consumes (n : nat) :
  ∀ (u : stream) (d r : pydict AnnotationSet) (u' : stream),
    read_sets n u d = Ok (r, u') →
    consumes (λ u, read_sets n u d) u r u'.
Proof.
  induction n as [|n IH]; intros u d r u'.
  - intros [= <- <-]. exists []. split; [done|]. split; [done|].
    intros p q Hcut Hq. symmetry in Hcut. by apply app_eq_nil in Hcut as [_ ->].
  - simpl. destruct u as [|v1 [|v2 [|v3 u]]]; try done. simpl.
    destruct (py_range v3) as [k|e] eqn:Hk; [|done]. simpl.
    destruct (read_annotations k u []) as [[anns u1]|e] eqn:Hanns; [|done]. simpl.
    destruct (dict_setitem d _ _) as [d'|e] eqn:Hset; [|done]. simpl.
    apply read_annotations_consumes in Hanns as (ca & -> & Hamore & Haless).
    intros (cs & -> & Hmore & Hless)%IH.
    exists (v1 :: v2 :: v3 :: ca ++ cs). split; [simpl; by rewrite app_assoc|]. split.
    + intros y. simpl. rewrite Hk. simpl. rewrite <- app_assoc, Hamore. simpl.
      rewrite Hset. simpl. apply Hmore.
    + intros p q Hcut Hq. do 3 cut_here p Hcut.
      simpl. rewrite Hk. simpl.
      symmetry in Hcut. apply app_eq_app in Hcut as [l [[-> ->]|[Hca ->]]].
      * rewrite Hamore. simpl. rewrite Hset. simpl. by eapply Hless.
      * destruct l as [|x l].
        -- rewrite app_nil_r in Hca. subst ca.
           pose proof (Hamore []) as Hall. rewrite app_nil_r in Hall.
           rewrite Hall. simpl. rewrite Hset. simpl. by eapply (Hless [] cs).
        -- by rewrite (Haless p (x :: l)).
Qed.

(** X7: values that follow a document in the stream are ignored: if
    [stream2document] returns a document for a stream, it returns the same
    document when more values are appended. *)
Theorem trailing_values_ignored (u extra : stream) (doc : Document) :
  stream2document u = Ok doc → stream2document (u ++ extra) = Ok doc.
Proof.
  unfold stream2document.
  destruct u as [|version [|ot [|txt [|feats [|nsets u]]]]]; simpl;
    try done; destruct (negb _); try done.
  destruct (py_range nsets) as [k|e]; [|done]. simpl.
  destruct (read_sets k u []) as [[sets u1]|e] eqn:Hsets; [|done]. simpl.
  intros [= <-].
  apply read_sets_consumes in Hsets as (c & -> & Hmore & _).
  by rewrite <- app_assoc, Hmore.
Qed.

Lemma trailing_values_ignored_witness :
  stream2document
    ([VStr "sm1"; VStr "p"; VStr "x"; VMap []; VInt 0] ++ [VInt 5; VNone])
  = Ok (mkDocument (VStr "p") (VStr "x") (VMap []) []).
Proof.
  apply (trailing_values_ignored [VStr "sm1"; VStr "p"; VStr "x"; VMap []; VInt 0]
           [VInt 5; VNone]).
  reflexivity.
Defined.

(** X8: a stream that stops anywhere before the last value of a document
    makes [stream2document] raise [OutOfData]; it never returns the part it
    has read. *)
Theorem truncated_stream_raises (doc : Document) (p q : stream) :
  well_keyed doc → document_values doc = p ++ q → q ≠ [] →
  stream2document p = Raise OutOfData.
Proof.
  intros [Hk Hsets] Hcut Hq. destruct doc as [ot txt feats sets]. simpl in *.
  unfold document_values in Hcut. simpl in Hcut.
  do 5 cut_here p Hcut.
  unfold stream2document. simpl. rewrite Nat2Z.id. simpl.
  pose proof (read_sets_keyed sets [] [] Hk Hsets) as Hall.
  apply read_sets_consumes in Hall as (c & Hc & _ & Hless).
  apply app_inv_tail in Hc. subst c. by rewrite (Hless p q).
Qed.

Lemma truncated_stream_raises_witness :
  stream2document (take 12 (document_values two_annotation_doc)) = Raise OutOfData.
Proof.
  assert (Hwk : well_keyed two_annotation_doc).
  { unfold well_keyed, keyed_by. simpl. split; [split|].
    - constructor; [split; [done | by eexists] | constructor].
    - apply NoDup_singleton.
    - constructor; [|constructor]. split; [done|]. simpl. split.
      + repeat (constructor; [split; [done | by eexists]|]). constructor.
      + apply (bool_decide_unpack _). by vm_compute. }
  apply (truncated_stream_raises two_annotation_doc
           (take 12 (document_values two_annotation_doc))
           (drop 12 (document_values two_annotation_doc)) Hwk);
    [reflexivity | discriminate].
Defined.

(** X9: the set count decides how much is read: with a count that is zero
    or negative the reader returns a document without sets and looks at
    nothing after the count; with a count that is not an integer it raises
    [TypeError]. *)
Theorem set_count_edges (ot txt feats nsets : value) (rest : stream) :
  ((∃ n, nsets = VInt n ∧ n ≤ 0) →
     stream2document ([VStr "sm1"; ot; txt; feats; nsets] ++ rest)
     = Ok (mkDocument ot txt feats []))
  ∧ (py_range nsets = Raise TypeError →
     stream2document ([VStr "sm1"; ot; txt; feats; nsets] ++ rest)
     = Raise TypeError).
Proof.
  split.
  - intros (n & -> & Hn). unfold stream2document. simpl.
    by replace (Z.to_nat n) with 0%nat by lia.
  - intros Hr. unfold stream2document. simpl. by rewrite Hr.
Qed.

Lemma set_count_edges_witness :
  stream2document ([VStr "sm1"; VStr "p"; VStr "x"; VMap []; VInt (-3)] ++ [VStr "s"])
  = Ok (mkDocument (VStr "p") (VStr "x") (VMap []) [])
  ∧ stream2document ([VStr "sm1"; VStr "p"; VStr "x"; VMap []; VStr "1"] ++ [])
    = Raise TypeError.
Proof.
  split.
  - apply (set_count_edges (VStr "p") (VStr "x") (VMap []) (VInt (-3)) [VStr "s"]).
    exists (-3). split; [reflexivity | lia].
  - apply (set_count_edges (VStr "p") (VStr "x") (VMap []) (VStr "1") []).
    reflexivity.
Defined.

(** X10: two sets with the same name in one stream do not merge: the
    second replaces the first, with its counter and its annotations, under
    the key of the first.  A [None] name counts as the empty name. *)
Theorem duplicate_set_names_replace (ot txt feats name1 next1 name2 next2 : value)
    (anns1 anns2 : list Annotation) (rest : stream) (h : key) :
  Forall hashable_id anns1 → Forall hashable_id anns2 →
  hash_key (none_to_empty name1) = Some h →
  hash_key (none_to_empty name2) = Some h →
  stream2document
    ([VStr "sm1"; ot; txt; feats; VInt 2]
     ++ [name1; next1; VInt (Z.of_nat (length anns1))] ++ flat_map ann_values anns1
     ++ [name2; next2; VInt (Z.of_nat (length anns2))] ++ flat_map ann_values anns2
     ++ rest)
  = Ok (mkDocument ot txt feats
          [(none_to_empty name1,
            mkAnnotationSet (none_to_empty name2) next2
              (fold_left store_ann anns2 []))]).
Proof.
  intros Ha1 Ha2 Hn1 Hn2. unfold stream2document. simpl. rewrite Nat2Z.id.
  rewrite read_annotations_flat by done. simpl.
  unfold dict_setitem. rewrite Hn1. simpl. rewrite Nat2Z.id.
  rewrite read_annotations_flat by done. simpl.
  rewrite Hn2. simpl. by rewrite bool_decide_eq_true_2.
Qed.

Lemma duplicate_set_names_replace_witness :
  stream2document
    ([VStr "sm1"; VStr "p"; VStr "abcd"; VMap []; VInt 2]
     ++ [VNone; VInt 8; VInt 1] ++ flat_map ann_values [dup_first]
     ++ [VStr ""; VInt 3; VInt 0] ++ flat_map ann_values []
     ++ [])
  = Ok (mkDocument (VStr "p") (VStr "abcd") (VMap [])
          [(VStr "", mkAnnotationSet (VStr "") (VInt 3) [])]).
Proof.
  apply (duplicate_set_names_replace (VStr "p") (VStr "abcd") (VMap [])
           VNone (VInt 8) (VStr "") (VInt 3) [dup_first] [] [] (KStr "")).
  - repeat constructor. by eexists.
  - constructor.
  - reflexivity.
  - reflexivity.
Defined.

(** ** Savers and loaders *)

Section Savers_and_loaders.
Context `{Collaborators}.

(** X11: [MsgPackSerializer.save] never succeeds on a document that has an
    annotation set, for no target: the exception of [document2stream]
    comes through, or the one of [open]. *)
Theorem msgpack_save_raises_with_sets (cls : clazz) (doc : Document)
    (to_ext : option filespec) (to_mem : bool) :
  d_annotation_sets doc ≠ [] →
  raises (MsgPackSerializer.save cls (IDocument doc) to_ext to_mem).
Proof.
  intros Hsets. unfold MsgPackSerializer.save. simpl.
  assert (Hw : raises (document2stream doc [])).
  { unfold document2stream. apply pack_sets_raises. by destruct (d_annotation_sets doc). }
  destruct (document2stream doc []) as [s|e]; [done|].
  destruct to_mem; [done|]. by destruct (open_arg to_ext).
Qed.

(** X12: a document without annotation sets goes through the in-memory
    msgpack saver and loader unchanged, when the byte coding gives back the
    values it was given and is not empty. *)
Theorem msgpack_memory_roundtrip (cls : clazz) (doc : Document)
    (to_ext : option filespec) :
  d_annotation_sets doc = [] →
  let s := [VStr "sm1"; d_offset_type doc; d_text doc; d_features doc; VInt 0] in
  msgpack_values (msgpack_bytes s) = s → msgpack_bytes s ≠ [] →
  MsgPackSerializer.save cls (IDocument doc) to_ext true
  = Ok (VBytes (msgpack_bytes s), [])
  ∧ MsgPackSerializer.load ClsDocument None (Some (BufBytes (msgpack_bytes s)))
    = Ok (IDocument doc).
Proof.
  intros Hsets s Hcode Hne. destruct doc as [ot txt feats sets]. simpl in *.
  subst sets. split; [done|].
  unfold MsgPackSerializer.load. simpl.
  destruct (msgpack_bytes s) eqn:Hb; [done|]. simpl. by rewrite Hcode.
Qed.

(** X13: auto-detection of an in-memory [str] works for JSON only: a
    non-empty [str] that does not start with ["{"] goes to the msgpack
    loader, which cannot wrap a [str] in [BytesIO] and raises [TypeError]. *)
Theorem sniffed_str_must_be_json (from_ext : option filespec) (s : string)
    (gzip : bool) :
  s ≠ "" → startswith "{" s = false →
  (∀ ext, from_ext = Some ext → is_url ext = false) →
  determine_loader ClsDocument from_ext (Some (BufStr s)) gzip = Raise TypeError.
Proof.
  intros Hs Hbrace Hurl. destruct s as [|a r]; [done|].
  rewrite startswith_brace in Hbrace.
  unfold determine_loader. simpl. rewrite Hbrace.
  unfold MsgPackSerializer.load.
  by destruct from_ext as [ext|]; [rewrite (Hurl ext eq_refl)|].
Qed.

(** X14: a URL wins over everything else: when [from_ext] is a URL, what
    the JSON, msgpack and HTML loaders return does not depend on the
    in-memory source the caller passed. *)
Theorem url_overrides_memory (cls : clazz) (ext : filespec)
    (from_mem from_mem' : option buffer) (gzip : bool) :
  is_url ext = true →
  JsonSerializer.load cls (Some ext) from_mem gzip
  = JsonSerializer.load cls (Some ext) from_mem' gzip
  ∧ MsgPackSerializer.load cls (Some ext) from_mem
    = MsgPackSerializer.load cls (Some ext) from_mem'
  ∧ HtmlLoader.load cls (Some ext) from_mem = HtmlLoader.load cls (Some ext) from_mem'.
Proof.
  intros Hurl. unfold JsonSerializer.load, MsgPackSerializer.load, HtmlLoader.load.
  by rewrite Hurl.
Qed.

(** X15: a non-empty in-memory source wins over a path that is not a URL:
    the JSON loader parses the buffer and opens no file, so the result is
    the same for every such path and for no path. *)
Theorem memory_overrides_path (cls : clazz) (from_ext : option filespec)
    (buf : buffer) :
  buffer_truthy (Some buf) = true →
  (∀ ext, from_ext = Some ext → is_url ext = false) →
  JsonSerializer.load cls from_ext (Some buf) false
  = json_loads buf ≫= from_dict cls.
Proof.
  intros Hmem Hurl. unfold JsonSerializer.load.
  destruct from_ext as [ext|]; [rewrite (Hurl ext eq_refl)|];
    change (Ok ?x ≫= ?f) with (f x); cbv beta; by rewrite Hmem.
Qed.

(** X16: what the in-memory JSON saver returns, the in-memory JSON loader
    turns back into the object, when [json] parses what it printed, the
    class rebuilds the object from its dict, and the text is not empty. *)
Theorem json_memory_roundtrip (cls : clazz) (inst : instance)
    (to_ext : option filespec) (offset_type : option string) :
  let d := to_dict inst offset_type in
  json_loads (BufStr (json_dumps d)) = Ok d →
  from_dict cls d = Ok inst →
  json_dumps d ≠ "" →
  JsonSerializer.save cls inst to_ext true offset_type false
  = Ok (VStr (json_dumps d), [])
  ∧ JsonSerializer.load cls None (Some (BufStr (json_dumps d))) false = Ok inst.
Proof.
  intros d Hparse Hbuild Hne. split; [done|].
  unfold JsonSerializer.load. simpl.
  destruct (json_dumps d) eqn:Hd; [done|]. simpl. by rewrite Hparse.
Qed.

(** X17: the YAML saver has the fault of the JSON saver: with an in-memory
    target and [gzip] set it computes the compressed bytes and returns
    [None], and [save_gzip] returns [None] for every target; without [gzip]
    the in-memory save returns the YAML text. *)
Theorem yaml_save_mem_gzip_returns_none (yaml_dump : value → string)
    (cls : clazz) (inst : instance) (to_ext : option filespec)
    (offset_type : option string) :
  YamlSerializer.save yaml_dump cls inst to_ext true offset_type true = Ok (VNone, [])
  ∧ YamlSerializer.save_gzip yaml_dump cls inst to_ext true offset_type
    = Ok (VNone, [])
  ∧ (∀ to_mem r w,
       YamlSerializer.save_gzip yaml_dump cls inst to_ext to_mem offset_type
       = Ok (r, w) → r = VNone)
  ∧ YamlSerializer.save yaml_dump cls inst to_ext true offset_type false
    = Ok (VStr (yaml_dump (to_dict inst offset_type)), []).
Proof.
  split; [done|]. split; [done|]. split; [|done].
  intros to_mem r w. unfold YamlSerializer.save_gzip.
  destruct (YamlSerializer.save _ _ _ _ _ _ _) as [[r' w']|e]; [|done].
  by intros [= <- _].
Qed.

End Savers_and_loaders.

Lemma msgpack_save_raises_with_sets_witness :
  raises (@MsgPackSerializer.save sample_collaborators ClsDocument
            (IDocument one_annotation_doc) None true).
Proof.
  apply (@msgpack_save_raises_with_sets sample_collaborators ClsDocument
           one_annotation_doc None true).
  discriminate.
Defined.

Lemma msgpack_memory_roundtrip_witness :
  @MsgPackSerializer.save one_stream_collaborators ClsDocument
     (IDocument (mkDocument (VStr "p") (VStr "x") (VMap []) [])) None true
  = Ok (VBytes [Byte.x00], [])
  ∧ @MsgPackSerializer.load one_stream_collaborators ClsDocument None
      (Some (BufBytes [Byte.x00]))
    = Ok (IDocument (mkDocument (VStr "p") (VStr "x") (VMap []) [])).
Proof.
  apply (@msgpack_memory_roundtrip one_stream_collaborators ClsDocument
           (mkDocument (VStr "p") (VStr "x") (VMap []) []) None);
    [reflexivity | reflexivity | discriminate].
Defined.

Lemma sniffed_str_must_be_json_witness :
  @determine_loader sample_collaborators ClsDocument None (Some (BufStr "text: x"))
    false
  = Raise TypeError.
Proof.
  apply (@sniffed_str_must_be_json sample_collaborators None "text: x" false);
    [discriminate | reflexivity | discriminate].
Defined.

Lemma url_overrides_memory_witness :
  @JsonSerializer.load sample_collaborators ClsDocument
     (Some (FsStr "https://example.org/doc.bdocjs")) (Some (BufStr "{}")) false
  = @JsonSerializer.load sample_collaborators ClsDocument
      (Some (FsStr "https://example.org/doc.bdocjs")) None false.
Proof.
  apply (@url_overrides_memory sample_collaborators ClsDocument
           (FsStr "https://example.org/doc.bdocjs") (Some (BufStr "{}")) None false).
  reflexivity.
Defined.

Lemma memory_overrides_path_witness :
  @JsonSerializer.load sample_collaborators ClsDocument (Some (FsStr "doc.bdocjs"))
    (Some (BufStr "{}")) false
  = Ok (IDocument (mkDocument (VStr "p") (VStr "") (VMap []) [])).
Proof.
  rewrite (@memory_overrides_path sample_collaborators ClsDocument
             (Some (FsStr "doc.bdocjs")) (BufStr "{}")); [reflexivity..|].
  by intros ext [= <-].
Defined.

Lemma json_memory_roundtrip_witness :
  @JsonSerializer.load sample_collaborators ClsDocument None (Some (BufStr "{}")) false
  = Ok (IDocument (mkDocument (VStr "p") (VStr "") (VMap []) [])).
Proof.
  apply (@json_memory_roundtrip sample_collaborators ClsDocument
           (IDocument (mkDocument (VStr "p") (VStr "") (VMap []) [])) None None);
    [reflexivity | reflexivity | discriminate].
Defined.

(** ** The markup walk: offsets, text and annotations *)

Lemma newline_for_grows (name : string) (d : docinfo) :
  (curoffset d ≤ curoffset (newline_for name d))%nat
  ∧ (offset_is_length d → offset_is_length (newline_for name d))
  ∧ ∃ t, text (newline_for name d) = text d +:+ t.
Proof.
  unfold newline_for, offset_is_length. destruct (_ && _); simpl.
  - split; [lia|]. split; [|by exists NL].
    intros ->. rewrite str_length_app. simpl. lia.
  - split; [lia|]. split; [done|]. exists "". by rewrite str_app_nil_r.
Qed.

Lemma walk_children_offset (children : list node) :
  Forall (λ el, ∀ d, offset_is_length d →
            offset_is_length (walktree el d)
            ∧ ∃ t, text (walktree el d) = text d +:+ t) children →
  ∀ d, offset_is_length d →
    let d' := fold_left (λ d child, walktree child d) children d in
    offset_is_length d' ∧ ∃ t, text d' = text d +:+ t.
Proof.
  induction 1 as [|c cs Hc _ IH]; intros d Hd; simpl.
  - split; [done|]. exists "". by rewrite str_app_nil_r.
  - destruct (Hc d Hd) as (Hd1 & t1 & Ht1).
    destruct (IH _ Hd1) as (Hd2 & t2 & Ht2). simpl in Hd2, Ht2.
    split; [done|]. exists (t1 +:+ t2). by rewrite Ht2, Ht1, str_app_assoc.
Qed.

Lemma walk_children_length (children : list node) :
  Forall (λ el, ∀ d, offset_is_length d → offset_is_length (walktree el d)) children →
  ∀ d, offset_is_length d →
    offset_is_length (fold_left (λ d child, walktree child d) children d).
Proof.
  induction 1 as [|c cs Hc _ IH]; intros d Hd; simpl; [done|]. by apply IH, Hc.
Qed.

Lemma walktree_length (el : node) (d : docinfo) :
  offset_is_length d → offset_is_length (walktree el d).
Proof.
  revert d. induction el as [s|name attrs children IH|] using node_induction;
    intros d Hd.
  - unfold offset_is_length in *. simpl. by rewrite str_length_app, Hd.
  - rewrite walktree_tag. cbv zeta.
    apply newline_for_grows, (walk_children_length children IH).
    by apply newline_for_grows.
  - done.
Qed.

(** X18: the walk only appends to the text buffer, and it keeps the running
    offset equal to the length of the buffer; so after a walk from the empty
    state the offset is the length of the text. *)
Theorem walk_keeps_offset (el : node) (d : docinfo) :
  offset_is_length d →
  offset_is_length (walktree el d)
  ∧ ∃ t, text (walktree el d) = text d +:+ t.
Proof.
  revert d. induction el as [s|name attrs children IH|] using node_induction;
    intros d Hd.
  - unfold offset_is_length in *. simpl. rewrite str_length_app, Hd. eauto.
  - rewrite walktree_tag. cbv zeta.
    destruct (newline_for_grows name d) as (_ & Hd1 & t1 & Ht1).
    specialize (Hd1 Hd). set (d1 := newline_for name d) in *.
    set (d2 := mkDocinfo _ (curoffset d1) _ (text d1)).
    destruct (walk_children_offset children IH d2 Hd1) as (Hd3 & t3 & Ht3).
    cbv zeta in Hd3, Ht3. set (d3 := fold_left _ children d2) in *.
    destruct (newline_for_grows name d3) as (_ & Hd4 & t4 & Ht4).
    specialize (Hd4 Hd3). split; [exact Hd4|].
    exists (t1 +:+ t3 +:+ t4). simpl. rewrite Ht4, Ht3. simpl.
    by rewrite Ht1, !str_app_assoc.
  - split; [done|]. exists "". by rewrite str_app_nil_r.
Qed.

Lemma walk_keeps_offset_witness :
  offset_is_length (walktree (Tag "p" (VMap []) [NavigableString "A"]) docinfo0).
Proof.
  apply (walk_keeps_offset (Tag "p" (VMap []) [NavigableString "A"]) docinfo0).
  reflexivity.
Defined.

(** *** Nesting *)

Lemma nested_le (lo hi o1 o2 : nat) (l : list anninfo) :
  nested lo hi o1 o2 l → (o1 ≤ o2)%nat.
Proof. induction 1; lia. Qed.

Lemma nested_weaken (lo hi o1 o2 o2' : nat) (l : list anninfo) :
  nested lo hi o1 o2 l → (o2 ≤ o2')%nat → nested lo hi o1 o2' l.
Proof.
  intros Hn. revert o2'. induction Hn; intros o2' Hle.
  - constructor. lia.
  - econstructor; eauto.
  - constructor; [done | done | lia].
Qed.

Lemma nested_balanced (lo hi o1 o2 : nat) (l : list anninfo) :
  nested lo hi o1 o2 l → balanced lo hi l.
Proof. induction 1; econstructor; eauto. Qed.

Lemma start_id_elem (l : list anninfo) (a : anninfo) (i : nat) :
  a ∈ l → start_id a = Some i → i ∈ start_ids l.
Proof. intros Ha Hi. apply list_elem_of_omap. eauto. Qed.

Lemma end_id_elem (l : list anninfo) (i e : nat) :
  EndInfo i e ∈ l → i ∈ end_ids l.
Proof. intros Ha. apply list_elem_of_omap. exists (EndInfo i e). eauto. Qed.

Lemma balanced_start_range (lo hi : nat) (l : list anninfo) (i : nat) :
  balanced lo hi l → i ∈ start_ids l → (lo ≤ i < hi)%nat.
Proof.
  intros Hb Hi. rewrite (balanced_start_ids _ _ _ Hb) in Hi.
  apply elem_of_seq in Hi. apply balanced_le in Hb. lia.
Qed.

Lemma balanced_end_range (lo hi : nat) (l : list anninfo) (i : nat) :
  balanced lo hi l → i ∈ end_ids l → (lo ≤ i < hi)%nat.
Proof.
  intros Hb Hi. rewrite (balanced_end_ids _ _ _ Hb) in Hi.
  apply elem_of_seq in Hi. apply balanced_le in Hb. lia.
Qed.

(** In a nested list the start event of an id lies at or before the end
    event of that id, both within the bounds. *)
Lemma nested_span (lo hi o1 o2 : nat) (l : list anninfo) :
  nested lo hi o1 o2 l →
  ∀ (a : anninfo) (i e : nat),
    a ∈ l → start_id a = Some i → EndInfo i e ∈ l →
    (o1 ≤ ev_offset a ≤ e ∧ e ≤ o2)%nat.
Proof.
  induction 1 as [n o1 o2 Ho|lo mid hi o1 o2 o3 l1 l2 H1 IH1 H2 IH2
                  |lo hi o1 o2 t f s e' l Hs H1 IH1 He]; intros a i e Ha Hi He'.
  - by apply elem_of_nil in Ha.
  - pose proof (nested_le _ _ _ _ _ H1). pose proof (nested_le _ _ _ _ _ H2).
    apply nested_balanced in H1 as Hb1. apply nested_balanced in H2 as Hb2.
    apply elem_of_app in Ha as [Ha|Ha]; apply elem_of_app in He' as [He'|He'].
    + specialize (IH1 _ _ _ Ha Hi He'). lia.
    + pose proof (balanced_start_range _ _ _ _ Hb1 (start_id_elem _ _ _ Ha Hi)).
      pose proof (balanced_end_range _ _ _ _ Hb2 (end_id_elem _ _ _ He')). lia.
    + pose proof (balanced_start_range _ _ _ _ Hb2 (start_id_elem _ _ _ Ha Hi)).
      pose proof (balanced_end_range _ _ _ _ Hb1 (end_id_elem _ _ _ He')). lia.
    + specialize (IH2 _ _ _ Ha Hi He'). lia.
  - pose proof (nested_le _ _ _ _ _ H1). apply nested_balanced in H1 as Hb1.
    apply elem_of_cons in Ha as [->|Ha]; apply elem_of_cons in He' as [[=]|He'];
      rewrite elem_of_app, list_elem_of_singleton in *.
    + simpl in Hi. injection Hi as <-. destruct He' as [He'|[= <-]]; [|simpl; lia].
      pose proof (balanced_end_range _ _ _ _ Hb1 (end_id_elem _ _ _ He')). lia.
    + destruct Ha as [Ha| ->]; [|done]. destruct He' as [He'|[= <- <-]].
      * specialize (IH1 _ _ _ Ha Hi He'). lia.
      * pose proof (balanced_start_range _ _ _ _ Hb1 (start_id_elem _ _ _ Ha Hi)). lia.
Qed.

Lemma walk_children_nests (children : list node) :
  Forall walk_nests children →
  ∀ d : docinfo, ∃ evs : list anninfo,
    let d' := fold_left (λ d child, walktree child d) children d in
    anninfos d' = anninfos d ++ evs
    ∧ nested (curid d) (curid d') (curoffset d) (curoffset d') evs
    ∧ start_tags evs = flat_map tags_attrs_preorder children.
Proof.
  induction 1 as [|c cs Hc _ IH]; intros d; simpl.
  - exists []. rewrite app_nil_r. split; [done|]. split; [by constructor | done].
  - destruct (Hc d) as (evs1 & Ha1 & Hb1 & Ht1).
    destruct (IH (walktree c d)) as (evs2 & Ha2 & Hb2 & Ht2). simpl in *.
    exists (evs1 ++ evs2). split; [by rewrite Ha2, Ha1, app_assoc|].
    split; [by econstructor|].
    unfold start_tags in *. by rewrite omap_app, Ht1, Ht2.
Qed.

Lemma walktree_nests (el : node) : walk_nests el.
Proof.
  induction el as [s|name attrs children IH|] using node_induction; intros d.
  - exists []. simpl. rewrite app_nil_r. split; [done|].
    split; [constructor; lia | done].
  - rewrite walktree_tag. cbv zeta.
    destruct (newline_for_anninfos name d) as [Ha1 Hc1].
    destruct (newline_for_grows name d) as (Ho1 & _).
    set (d1 := newline_for name d) in *.
    set (d2 := mkDocinfo _ (curoffset d1) _ _).
    destruct (walk_children_nests children IH d2) as (evs & Ha3 & Hb3 & Ht3).
    cbv zeta in *. set (d3 := fold_left _ children d2) in *.
    destruct (newline_for_anninfos name d3) as [Ha4 Hc4].
    destruct (newline_for_grows name d3) as (Ho4 & _).
    set (d4 := newline_for name d3) in *.
    exists (StartInfo name attrs (curid d) (curoffset d1) None
              :: evs ++ [EndInfo (curid d) (curoffset d4)]).
    simpl. rewrite Ha4, Ha3, Hc4. simpl. rewrite Ha1, !Hc1.
    split; [by rewrite <- !app_assoc|]. split.
    + constructor; [done | | done]. simpl in Hb3.
      rewrite Hc1, Nat.add_1_r in Hb3. by eapply nested_weaken.
    + unfold start_tags in *. simpl. rewrite omap_app, Ht3. simpl.
      by rewrite app_nil_r.
  - exists []. simpl. rewrite app_nil_r. split; [done|].
    split; [constructor; lia | done].
Qed.

(** *** What pairing returns *)

Lemma index_starts_other (evs : list anninfo) (n : nat) (m : gmap nat anninfo)
    (i : nat) :
  i ∉ start_ids evs → (index_starts evs n m).2 !! i = m !! i.
Proof.
  revert n m. induction evs as [|[t f j s e|j e] evs IH]; intros n m Hi; simpl.
  - done.
  - unfold start_ids in Hi. simpl in Hi. apply not_elem_of_cons in Hi as [Hne Hi].
    rewrite IH by done. by rewrite lookup_insert_ne.
  - by apply IH.
Qed.

Lemma index_starts_lookup (evs : list anninfo) (n : nat) (m : gmap nat anninfo)
    (a : anninfo) (i : nat) :
  NoDup (start_ids evs) → a ∈ evs → start_id a = Some i →
  (index_starts evs n m).2 !! i = Some a.
Proof.
  revert n m. induction evs as [|[t f j s e|j e] evs IH]; intros n m Hnd Ha Hi.
  - by apply elem_of_nil in Ha.
  - unfold start_ids in Hnd. simpl in Hnd. apply NoDup_cons in Hnd as [Hj Hnd].
    simpl. apply elem_of_cons in Ha as [->|Ha].
    + simpl in Hi. injection Hi as <-.
      rewrite index_starts_other by done. by rewrite lookup_insert_eq.
    + by apply IH.
  - simpl. apply elem_of_cons in Ha as [->|Ha]; [done|]. by apply IH.
Qed.

Lemma assign_ends_other (evs : list anninfo) :
  ∀ (n n' : nat) (m m' : gmap nat anninfo) (i : nat),
    i ∉ end_ids evs → assign_ends evs n m = Ok (n', m') → m' !! i = m !! i.
Proof.
  induction evs as [|[t f j s e|j e] evs IH]; intros n n' m m' i Hi; simpl.
  - by intros [= _ <-].
  - by apply IH.
  - unfold end_ids in Hi. simpl in Hi. apply not_elem_of_cons in Hi as [Hne Hi].
    destruct (m !! j) as [a|]; [|done]. intros Hrun.
    rewrite (IH _ _ _ _ _ Hi Hrun). by rewrite lookup_insert_ne.
Qed.

Lemma assign_ends_lookup (evs : list anninfo) :
  ∀ (n n' : nat) (m m' : gmap nat anninfo) (i e : nat),
    NoDup (end_ids evs) → EndInfo i e ∈ evs →
    assign_ends evs n m = Ok (n', m') →
    ∃ a, m !! i = Some a ∧ m' !! i = Some (set_end a e).
Proof.
  induction evs as [|[t f j s e0|j e0] evs IH]; intros n n' m m' i e Hnd He; simpl.
  - by apply elem_of_nil in He.
  - apply elem_of_cons in He as [[=]|He]. by apply IH.
  - unfold end_ids in Hnd. simpl in Hnd. apply NoDup_cons in Hnd as [Hj Hnd].
    destruct (m !! j) as [a|] eqn:Hm; [|done]. intros Hrun.
    apply elem_of_cons in He as [[= -> ->]|He].
    + exists a. split; [done|].
      rewrite (assign_ends_other _ _ _ _ _ _ Hj Hrun). by rewrite lookup_insert_eq.
    + destruct (IH _ _ _ _ _ _ Hnd He Hrun) as (b & Hb & Hb').
      assert (i ≠ j) by (intros ->; by apply Hj, (end_id_elem _ _ e)).
      exists b. by rewrite lookup_insert_ne in Hb.
Qed.

Lemma mapM_result_lookup {A B} (f : A → result B) (l : list A) (ys : list B) :
  mapM f l = Ok ys →
  ∀ k y, ys !! k = Some y → ∃ x, l !! k = Some x ∧ f x = Ok y.
Proof.
  revert ys. induction l as [|x l IH]; intros ys; simpl.
  - intros [= <-] k y Hk. by destruct k.
  - destruct (f x) as [y0|e] eqn:Hx; [|done]. simpl.
    destruct (mapM f l) as [ys0|e]; [|done]. simpl. intros [= <-] k y Hk.
    destruct k as [|k]; simpl in *.
    + injection Hk as <-. eauto.
    + by apply (IH ys0).
Qed.

(** On a balanced event list that starts at id 0, the annotation number
    [k] is made of the start event with id [k] and the offset of the end
    event with id [k]. *)
Lemma pair_events_pairs (d : docinfo) (n : nat) (doc : markup_document) :
  balanced 0 n (anninfos d) → pair_events d = Ok doc →
  md_text doc = text d
  ∧ length (md_added doc) = n
  ∧ ∀ k x, md_added doc !! k = Some x →
      ∃ a e, a ∈ anninfos d ∧ start_id a = Some k
             ∧ EndInfo k e ∈ anninfos d ∧ x = added_of a e.
Proof.
  intros Hbal Hrun.
  destruct (pair_events_balanced d n Hbal) as (anns & Hok & Hlen).
  rewrite Hok in Hrun. injection Hrun as <-. simpl.
  split; [done|]. split; [done|]. intros k x Hk.
  pose proof (balanced_start_ids _ _ _ Hbal) as Hs.
  pose proof (balanced_end_ids _ _ _ Hbal) as He. rewrite Nat.sub_0_r in Hs, He.
  assert (Hnds : NoDup (start_ids (anninfos d))) by (rewrite Hs; apply NoDup_seq).
  assert (Hnde : NoDup (end_ids (anninfos d))) by (rewrite He; apply NoDup_seq).
  unfold pair_events in Hok.
  pose proof (index_starts_count (anninfos d) 0 ∅) as Hn.
  pose proof (λ a i, index_starts_lookup (anninfos d) 0 ∅ a i Hnds) as Hstart.
  destruct (index_starts (anninfos d) 0 ∅) as [nstart m]. simpl in Hn, Hstart.
  destruct (assign_ends (anninfos d) 0 m) as [[nend m']|e] eqn:Hends; [|done].
  simpl in Hok. case_bool_decide; [|done].
  destruct (mapM (add_one m') (seq 0 nstart)) as [ys|e] eqn:Hmap; [|done].
  simpl in Hok. injection Hok as ->.
  destruct (mapM_result_lookup _ _ _ Hmap k x Hk) as (i & Hi & Hadd).
  apply lookup_seq in Hi as [-> Hlt]. simpl in Hadd.
  assert (Hin : k ∈ end_ids (anninfos d)).
  { rewrite He. apply elem_of_seq. rewrite Hs, length_seq in Hn. lia. }
  apply list_elem_of_omap in Hin as (b & Hb & Hbid).
  destruct b as [|j e]; [done|]. simpl in Hbid. injection Hbid as ->.
  destruct (assign_ends_lookup _ _ _ _ _ _ _ Hnde Hb Hends) as (a & Ha & Ha').
  assert (Hk' : k ∈ start_ids (anninfos d)).
  { rewrite Hs. apply elem_of_seq. rewrite Hs, length_seq in Hn. lia. }
  apply list_elem_of_omap in Hk' as (a0 & Ha0 & Ha0id).
  rewrite (Hstart a0 k Ha0 Ha0id) in Ha. injection Ha as <-.
  exists a0, e. split; [done|]. split; [done|]. split; [done|].
  unfold add_one in Hadd. rewrite Ha' in Hadd.
  destruct a0 as [t f j s o|]; [|done]. simpl in Hadd. by injection Hadd as <-.
Qed.

(** X19: every annotation that the loader adds lies within the text:
    [0 <= start <= end <= len(text)], for every tree. *)
Theorem annotations_within_text (bs : node) (doc : markup_document) :
  load_tree bs = Ok doc →
  ∀ x, x ∈ md_added doc →
    (add_start x ≤ add_end x ≤ String.length (md_text doc))%nat.
Proof.
  intros Hload x Hx. unfold load_tree in Hload.
  destruct (walktree_nests bs docinfo0) as (evs & Hev & Hnest & _).
  simpl in Hev, Hnest. rewrite <- Hev in Hnest.
  pose proof (walktree_length bs docinfo0 eq_refl) as Hlen.
  set (d := walktree bs docinfo0) in *.
  destruct (pair_events_pairs d _ doc (nested_balanced _ _ _ _ _ Hnest) Hload)
    as (Htext & _ & Hpairs).
  apply list_elem_of_lookup in Hx as [k Hk].
  destruct (Hpairs k x Hk) as (a & e & Ha & Hid & He & ->).
  destruct (nested_span _ _ _ _ _ Hnest a k e Ha Hid He) as [Hspan Hhi].
  rewrite Htext, <- Hlen. destruct a; [simpl in *; lia | done].
Qed.

Lemma annotations_within_text_witness :
  (add_start (mkAdded 1 3 "p" (VMap [])) ≤ add_end (mkAdded 1 3 "p" (VMap []))
   ≤ String.length (NL +:+ "A" +:+ NL))%nat.
Proof.
  apply (annotations_within_text (Tag "p" (VMap []) [NavigableString "A"])
           (mkMarkupDocument (NL +:+ "A" +:+ NL) [mkAdded 1 3 "p" (VMap [])])).
  - reflexivity.
  - simpl. constructor.
Defined.

Lemma start_tags_lookup (evs : list anninfo) (k i : nat) :
  start_ids evs !! k = Some i →
  ∃ a, a ∈ evs ∧ start_id a = Some i ∧ start_tags evs !! k = start_tag a.
Proof.
  revert k. induction evs as [|[t f j s e|j e] evs IH]; intros k Hk.
  - done.
  - destruct k as [|k]; simpl in Hk.
    + injection Hk as ->. exists (StartInfo t f i s e). split; [by left | done].
    + destruct (IH k Hk) as (a & Ha & Hid & Htag). exists a. split; [by right | done].
  - destruct (IH k Hk) as (a & Ha & Hid & Htag). exists a. split; [by right | done].
Qed.

(** X20: the loader adds one annotation for each tag of the tree, in
    document order with parents first, with the tag name as its type and
    the attributes of the tag as its features. *)
Theorem annotations_follow_tags (bs : node) (doc : markup_document) :
  load_tree bs = Ok doc →
  (λ x, (add_anntype x, add_features x)) <$> md_added doc = tags_attrs_preorder bs.
Proof.
  intros Hload. unfold load_tree in Hload.
  destruct (walktree_nests bs docinfo0) as (evs & Hev & Hnest & Htags).
  simpl in Hev, Hnest. rewrite <- Hev in Hnest, Htags.
  set (d := walktree bs docinfo0) in *.
  apply nested_balanced in Hnest as Hbal.
  destruct (pair_events_pairs d _ doc Hbal Hload) as (_ & Hlen & Hpairs).
  pose proof (balanced_start_ids _ _ _ Hbal) as Hs. rewrite Nat.sub_0_r in Hs.
  assert (Hnds : NoDup (start_ids (anninfos d))) by (rewrite Hs; apply NoDup_seq).
  rewrite <- Htags. apply list_eq. intros k. rewrite list_lookup_fmap.
  destruct (md_added doc !! k) as [x|] eqn:Hk; simpl.
  - destruct (Hpairs k x Hk) as (a & e & Ha & Hid & He & ->).
    assert (Hsk : start_ids (anninfos d) !! k = Some k).
    { rewrite Hs. apply lookup_seq. split; [done|].
      apply lookup_lt_Some in Hk. lia. }
    destruct (start_tags_lookup _ _ _ Hsk) as (a' & Ha' & Hid' & ->).
    assert (a' = a) as ->.
    { pose proof (index_starts_lookup (anninfos d) 0 ∅ a k Hnds Ha Hid).
      pose proof (index_starts_lookup (anninfos d) 0 ∅ a' k Hnds Ha' Hid').
      congruence. }
    by destruct a.
  - symmetry. apply lookup_ge_None. apply lookup_ge_None in Hk.
    assert (length (start_tags (anninfos d)) = length (start_ids (anninfos d))) as ->.
    { unfold start_tags, start_ids. clear. induction (anninfos d) as [|[]]; simpl; auto. }
    rewrite Hs, length_seq. lia.
Qed.

Lemma annotations_follow_tags_witness :
  (λ x, (add_anntype x, add_features x)) <$> [mkAdded 1 3 "p" (VMap [])]
  = tags_attrs_preorder (Tag "p" (VMap []) [NavigableString "A"]).
Proof.
  apply (annotations_follow_tags (Tag "p" (VMap []) [NavigableString "A"])
           (mkMarkupDocument (NL +:+ "A" +:+ NL) [mkAdded 1 3 "p" (VMap [])])).
  reflexivity.
Defined.

(** *** Text *)

Lemma newline_for_inline (name : string) (d : docinfo) :
  name ∉ nlels → newline_for name d = d.
Proof.
  intros Hout. unfold newline_for. rewrite (bool_decide_eq_false_2 _ Hout).
  by rewrite andb_false_r.
Qed.

Lemma walk_children_inline (children : list node) :
  Forall (λ el, Forall (λ t, t ∉ nlels) (tags_preorder el) →
            ∀ d, text (walktree el d) = text d +:+ text_content el
                 ∧ curoffset (walktree el d)
                   = (curoffset d + String.length (text_content el))%nat)
    children →
  Forall (λ t, t ∉ nlels) (flat_map tags_preorder children) →
  ∀ d, let d' := fold_left (λ d child, walktree child d) children d in
       let t := fold_right (λ c t, text_content c +:+ t) "" children in
       text d' = text d +:+ t
       ∧ curoffset d' = (curoffset d + String.length t)%nat.
Proof.
  induction 1 as [|c cs Hc _ IH]; intros Htags d; simpl.
  - rewrite str_app_nil_r. split; [done | lia].
  - simpl in Htags. apply Forall_app in Htags as [Htc Htcs].
    destruct (Hc Htc d) as [Ht1 Ho1]. destruct (IH Htcs (walktree c d)) as [Ht2 Ho2].
    simpl in Ht2, Ho2. rewrite Ht2, Ho2, Ht1, Ho1, str_app_assoc, str_length_app.
    split; [done | lia].
Qed.

(** X21: in a tree without block-level tags the walk inserts nothing: the
    text is what was there followed by the strings of the tree, and the
    offset grows by their length. *)
Theorem inline_text_is_content (el : node) (d : docinfo) :
  Forall (λ t, t ∉ nlels) (tags_preorder el) →
  text (walktree el d) = text d +:+ text_content el
  ∧ curoffset (walktree el d) = (curoffset d + String.length (text_content el))%nat.
Proof.
  revert d. induction el as [s|name attrs children IH|] using node_induction;
    intros d Htags.
  - done.
  - simpl in Htags. apply Forall_cons in Htags as [Hname Htags].
    rewrite walktree_tag. cbv zeta. rewrite (newline_for_inline name d Hname).
    set (d2 := mkDocinfo _ (curoffset d) _ (text d)).
    assert (IH' : Forall (λ el, Forall (λ t, t ∉ nlels) (tags_preorder el) →
              ∀ d, text (walktree el d) = text d +:+ text_content el
                   ∧ curoffset (walktree el d)
                     = (curoffset d + String.length (text_content el))%nat) children).
    { eapply Forall_impl; [exact IH|]. intros el Hel Ht d0. by apply Hel. }
    destruct (walk_children_inline children IH' Htags d2) as [Ht Ho].
    cbv zeta in Ht, Ho. rewrite newline_for_inline by done. simpl. by rewrite Ht, Ho.
  - simpl. rewrite str_app_nil_r. split; [done | lia].
Qed.

Lemma inline_text_is_content_witness :
  text (walktree (Tag "b" (VMap []) [NavigableString "A"; Tag "i" (VMap [])
                                       [NavigableString "B"]]) docinfo0)
  = "" +:+ "AB".
Proof.
  apply (inline_text_is_content
           (Tag "b" (VMap []) [NavigableString "A"; Tag "i" (VMap [])
                                 [NavigableString "B"]]) docinfo0).
  repeat constructor; apply (bool_decide_unpack _); by vm_compute.
Defined.

(** X22: an element without children always gives a zero-length
    annotation, block-level or not: its start and its end event carry the
    same offset, the one after the newline if one was inserted. *)
Theorem childless_element_is_empty (name : string) (attrs : value) (d : docinfo) :
  ∃ o : nat,
    anninfos (walktree (Tag name attrs []) d)
    = anninfos d ++ [StartInfo name attrs (curid d) o None; EndInfo (curid d) o]
    ∧ curoffset (walktree (Tag name attrs []) d) = o
    ∧ (curoffset d ≤ o ≤ curoffset d + 1)%nat.
Proof.
  rewrite walktree_tag. cbv zeta. simpl.
  destruct (newline_for_anninfos name d) as [Ha1 Hc1].
  destruct (newline_for_grows name d) as (Ho1 & _).
  set (d1 := newline_for name d) in *.
  set (d2 := mkDocinfo _ (curoffset d1) _ (text d1)).
  assert (Hsame : newline_for name d2 = d2).
  { unfold newline_for at 1. simpl. unfold d1, newline_for.
    destruct (negb (endswith_nl (text d)) && bool_decide (name ∈ nlels)) eqn:Hnl;
      simpl; [by rewrite endswith_nl_app | by rewrite Hnl]. }
  rewrite Hsame. simpl. exists (curoffset d1).
  rewrite Ha1, Hc1, <- app_assoc. split; [done|]. split; [done|].
  split; [done|]. unfold d1, newline_for. destruct (_ && _); simpl; lia.
Qed.

Lemma double_nl_app_nl (s : string) :
  double_nl s = false → endswith_nl s = false → double_nl (s +:+ NL) = false.
Proof.
  induction s as [|a s IH]; [done|]. rewrite str_app_cons.
  destruct s as [|b s].
  - simpl. intros _ Ha. by rewrite Ha.
  - intros Hd He. simpl in Hd, He. apply orb_false_iff in Hd as [Hab Hd].
    rewrite str_app_cons. simpl. rewrite Hab. simpl.
    rewrite str_app_cons in IH. apply IH; [done|]. by destruct s.
Qed.

Lemma double_nl_app_free (s t : string) :
  double_nl s = false → has_nl t = false → double_nl (s +:+ t) = false.
Proof.
  intros Hs Ht. induction s as [|a s IH].
  - rewrite str_app_nil. clear -Ht. induction t as [|b t IH]; [done|].
    simpl in Ht. apply orb_false_iff in Ht as [Hb Ht]. simpl.
    rewrite (IH Ht), Hb. simpl. by destruct t.
  - rewrite str_app_cons. simpl in Hs. apply orb_false_iff in Hs as [Hab Hs].
    simpl. rewrite (IH Hs), orb_false_r.
    destruct s as [|b s].
    + rewrite str_app_nil. destruct t as [|c t]; [done|].
      simpl in Ht. apply orb_false_iff in Ht as [Hc _]. by rewrite Hc, andb_false_r.
    + by rewrite str_app_cons.
Qed.

Lemma newline_for_no_double (name : string) (d : docinfo) :
  double_nl (text d) = false → double_nl (text (newline_for name d)) = false.
Proof.
  intros Hd. unfold newline_for.
  destruct (endswith_nl (text d)) eqn:He; simpl; [done|].
  destruct (bool_decide _); simpl; [|done]. by apply double_nl_app_nl.
Qed.

Lemma walk_children_no_double (children : list node) :
  Forall (λ el, strings_nl_free el = true →
            ∀ d, double_nl (text d) = false →
                 double_nl (text (walktree el d)) = false) children →
  forallb strings_nl_free children = true →
  ∀ d, double_nl (text d) = false →
       double_nl (text (fold_left (λ d child, walktree child d) children d)) = false.
Proof.
  induction 1 as [|c cs Hc _ IH]; intros Hfree d Hd; simpl; [done|].
  simpl in Hfree. apply andb_true_iff in Hfree as [Hfc Hfcs].
  apply IH; [done|]. by apply Hc.
Qed.

(** X23: block-level tags never double a newline: if no string of the
    tree has a newline and the buffer has no two newlines in a row, neither
    has the buffer after the walk, however the block-level tags follow one
    another. *)
Theorem no_doubled_newlines (el : node) (d : docinfo) :
  strings_nl_free el = true → double_nl (text d) = false →
  double_nl (text (walktree el d)) = false.
Proof.
  revert d. induction el as [s|name attrs children IH|] using node_induction;
    intros d Hfree Hd.
  - simpl in *. apply double_nl_app_free; [done|]. by apply negb_true_iff.
  - rewrite walktree_tag. cbv zeta. simpl in Hfree.
    apply newline_for_no_double. simpl.
    apply walk_children_no_double; [|done|].
    + eapply Forall_impl; [exact IH|]. intros el Hel Hf d0. by apply Hel.
    + simpl. by apply newline_for_no_double.
  - done.
Qed.

Lemma no_doubled_newlines_witness :
  double_nl (text (walktree
    (Tag "div" (VMap []) [Tag "p" (VMap []) [NavigableString "A"];
                          Tag "p" (VMap []) [NavigableString "B"]]) docinfo0))
  = false.
Proof.
  apply (no_doubled_newlines
    (Tag "div" (VMap []) [Tag "p" (VMap []) [NavigableString "A"];
                          Tag "p" (VMap []) [NavigableString "B"]]) docinfo0);
    reflexivity.
Defined.

(** *** Pairing on arbitrary event lists *)

Lemma assign_ends_missing (evs : list anninfo) :
  ∀ (n : nat) (m : gmap nat anninfo) (i : nat),
    i ∈ end_ids evs → m !! i = None → assign_ends evs n m = Raise KeyError.
Proof.
  induction evs as [|[t f j s e|j e] evs IH]; intros n m i Hi Hnone; simpl.
  - by apply elem_of_nil in Hi.
  - by apply (IH _ _ i).
  - destruct (m !! j) as [a|] eqn:Ha; [|done].
    unfold end_ids in Hi. simpl in Hi. apply elem_of_cons in Hi as [->|Hi]; [congruence|].
    apply (IH _ _ i); [done|]. rewrite lookup_insert_ne; [done | congruence].
Qed.

(** X24: pairing does not invent a start: on an event list with an end
    event whose id has no start event anywhere in the list, the loader's
    pairing raises [KeyError], before it compares the counts. *)
Theorem unmatched_end_raises (d : docinfo) (i : nat) :
  i ∈ end_ids (anninfos d) → i ∉ start_ids (anninfos d) →
  pair_events d = Raise KeyError.
Proof.
  intros Hend Hstart. unfold pair_events.
  pose proof (index_starts_other (anninfos d) 0 ∅ i Hstart) as Hm.
  destruct (index_starts (anninfos d) 0 ∅) as [nstart m]. simpl in Hm.
  rewrite lookup_empty in Hm. by rewrite (assign_ends_missing _ _ _ i).
Qed.

Lemma unmatched_end_raises_witness :
  pair_events (mkDocinfo [StartInfo "p" (VMap []) 0 0 None; EndInfo 1 0] 0 1 "")
  = Raise KeyError.
Proof.
  apply (unmatched_end_raises
           (mkDocinfo [StartInfo "p" (VMap []) 0 0 None; EndInfo 1 0] 0 1 "") 1).
  - apply (bool_decide_unpack _). by vm_compute.
  - apply (bool_decide_unpack _). by vm_compute.
Defined.

(** ** The GATE XML loader *)

Section Gate_xml.
Variable py_int : string → result Z.
Variable py_float : string → result value.
Variable ignore_unknown_types : bool.

Lemma text_node_ok (st : GateXmlLoader.textstate) (node : element) :
  textstate_ok st → textstate_ok (GateXmlLoader.text_node st node).
Proof.
  intros [Hlen Hall]. unfold GateXmlLoader.text_node, textstate_ok.
  destruct (str_truthy (el_tail node)); simpl.
  - split; [rewrite str_length_app; lia|].
    apply map_Forall_insert_2; [lia|].
    eapply map_Forall_impl; [exact Hall|]. simpl. intros; lia.
  - split; [done|]. by apply map_Forall_insert_2.
Qed.

Lemma text_nodes_ok (nodes : list element) (st : GateXmlLoader.textstate) :
  textstate_ok st → textstate_ok (fold_left GateXmlLoader.text_node nodes st).
Proof.
  revert st. induction nodes as [|n ns IH]; intros st Hst; [done|].
  simpl. by apply IH, text_node_ok.
Qed.

Lemma text_item_ok (st : GateXmlLoader.textstate) (item : element) :
  textstate_ok st → textstate_ok (GateXmlLoader.text_item st item).
Proof.
  intros [Hlen Hall]. unfold GateXmlLoader.text_item. apply text_nodes_ok.
  destruct (str_truthy (el_text item)); [|done]. unfold textstate_ok. simpl.
  split; [rewrite str_length_app; lia|].
  eapply map_Forall_impl; [exact Hall|]. simpl. intros; lia.
Qed.

Lemma text_items_ok (items : list element) (st : GateXmlLoader.textstate) :
  textstate_ok st → textstate_ok (fold_left GateXmlLoader.text_item items st).
Proof.
  revert st. induction items as [|i items0 IH]; intros st Hst; [done|].
  simpl. by apply IH, text_item_ok.
Qed.

Lemma annotations_of_ok (node2offset : gmap (option string) nat) (len : nat)
    (annots : list element) :
  map_Forall (λ _ o, (o ≤ len)%nat) node2offset →
  ∀ (anns anns' : list xml_annotation) (top top' : Z),
    0 ≤ top → Forall (annotation_ok len top) anns →
    GateXmlLoader.annotations_of py_int py_float ignore_unknown_types
      node2offset annots (anns, top) = Ok (anns', top') →
    0 ≤ top' ∧ Forall (annotation_ok len top') anns'.
Proof.
  intros Hmap. induction annots as [|ann annots IH]; intros anns anns' top top' Htop Hanns.
  - simpl. by intros [= <- <-].
  - simpl.
    destruct (attrib_getitem _ "Id") as [idtext|]; [|done]. simpl.
    destruct (py_int idtext) as [annid|]; [|done]. simpl.
    destruct (attrib_getitem _ "Type") as [anntype|]; [|done]. simpl.
    destruct (attrib_getitem _ "StartNode") as [startnode|]; [|done]. simpl.
    destruct (attrib_getitem _ "EndNode") as [endnode|]; [|done]. simpl.
    destruct (node2offset !! Some startnode) as [startoff|] eqn:Hs; [|done]. simpl.
    destruct (node2offset !! Some endnode) as [endoff|] eqn:He; [|done]. simpl.
    destruct (GateXmlLoader.parsefeatures _ _ _ _) as [features|]; [|done]. simpl.
    apply IH; [lia|]. apply Forall_app. split.
    + eapply Forall_impl; [exact Hanns|]. unfold annotation_ok. intros a. lia.
    + constructor; [|constructor]. unfold annotation_ok. simpl.
      pose proof (Hmap _ _ Hs). pose proof (Hmap _ _ He). simpl in *. lia.
Qed.

Lemma dict_store_Forall {A} (P : A → Prop) (h : key) (k : value) (x : A)
    (d : pydict A) :
  P x → Forall (λ kx, P kx.2) d → Forall (λ kx, P kx.2) (dict_store h k x d).
Proof.
  intros Hx. induction 1 as [|[k' x'] d Hk Hd IH]; simpl.
  - by repeat constructor.
  - case_bool_decide; by constructor.
Qed.

Lemma annsets_of_ok (node2offset : gmap (option string) nat) (len : nat)
    (annsets : list element) :
  map_Forall (λ _ o, (o ≤ len)%nat) node2offset →
  ∀ sets sets' : pydict xml_annset,
    Forall (λ ks, annset_ok len ks.2) sets →
    GateXmlLoader.annsets_of py_int py_float ignore_unknown_types
      node2offset annsets sets = Ok sets' →
    Forall (λ ks, annset_ok len ks.2) sets'.
Proof.
  intros Hmap. induction annsets as [|annset annsets IH]; intros sets sets' Hsets.
  - simpl. by intros [= <-].
  - simpl. unfold GateXmlLoader.annset_of.
    destruct (GateXmlLoader.annotations_of _ _ _ _ _ _) as [[anns top]|] eqn:Hanns;
      [|done]. simpl.
    apply (annotations_of_ok _ len) in Hanns as [Htop Hall]; [|done|lia|constructor].
    apply IH. apply (dict_store_Forall (annset_ok len)); [|done].
    unfold annset_ok. simpl. split; [lia|].
    by replace (top + 1 - 1) with top by lia.
Qed.

Lemma docmap_of_sets_ok (root : element) (dm : docmap) :
  GateXmlLoader.docmap_of py_int py_float ignore_unknown_types root = Ok dm →
  Forall (λ ks, annset_ok (String.length (dm_text dm)) ks.2) (dm_annotation_sets dm).
Proof.
  unfold GateXmlLoader.docmap_of.
  destruct (negb _); [done|]. destruct (negb _); [done|].
  destruct (GateXmlLoader.parsefeatures _ _ _ _) as [docfeatures|]; [|done]. simpl.
  set (st := fold_left GateXmlLoader.text_item _ _).
  assert (Hst : textstate_ok st).
  { apply text_items_ok. split; [done|]. apply map_Forall_empty. }
  destruct Hst as [Hlen Hall].
  destruct (GateXmlLoader.annsets_of _ _ _ _ _ _) as [sets|] eqn:Hsets; [|done].
  simpl. intros [= <-]. simpl. rewrite <- Hlen.
  by eapply annsets_of_ok; [exact Hall| |exact Hsets].
Qed.

(** X25: in the dict that the GATE XML loader builds, every annotation
    offset lies within the text: its start and its end are offsets of
    nodes, and no node lies beyond the end of the text.  (That the start is
    not after the end is not checked.) *)
Theorem xml_offsets_within_text (root : element) (dm : docmap) :
  GateXmlLoader.docmap_of py_int py_float ignore_unknown_types root = Ok dm →
  ∀ ks a, ks ∈ dm_annotation_sets dm → a ∈ xs_annotations ks.2 →
    (xa_start a ≤ String.length (dm_text dm))%nat
    ∧ (xa_end a ≤ String.length (dm_text dm))%nat.
Proof.
  intros Hdm%docmap_of_sets_ok ks a Hks Ha.
  rewrite Forall_forall in Hdm. destruct (Hdm ks Hks) as [_ Hall].
  rewrite Forall_forall in Hall. by destruct (Hall a Ha) as (_ & ? & ?).
Qed.

(** X26: the counter of every set that the GATE XML loader builds is at
    least 1 and larger than the id of every annotation of the set. *)
Theorem xml_next_annid_above_ids (root : element) (dm : docmap) :
  GateXmlLoader.docmap_of py_int py_float ignore_unknown_types root = Ok dm →
  ∀ ks, ks ∈ dm_annotation_sets dm →
    1 ≤ xs_next_annid ks.2
    ∧ ∀ a, a ∈ xs_annotations ks.2 → xa_id a < xs_next_annid ks.2.
Proof.
  intros Hdm%docmap_of_sets_ok ks Hks.
  rewrite Forall_forall in Hdm. destruct (Hdm ks Hks) as [Hnext Hall].
  split; [done|]. intros a Ha.
  rewrite Forall_forall in Hall. destruct (Hall a Ha) as (? & _). lia.
Qed.

Lemma text_nodes_none (nodes : list element) (st : GateXmlLoader.textstate)
    (k : option string) :
  k ∉ (λ node, el_attrib node !! "id") <$> nodes →
  GateXmlLoader.ts_node2offset st !! k = None →
  GateXmlLoader.ts_node2offset (fold_left GateXmlLoader.text_node nodes st) !! k = None.
Proof.
  revert st. induction nodes as [|n ns IH]; intros st Hk Hst; [done|].
  rewrite fmap_cons in Hk. apply not_elem_of_cons in Hk as [Hne Hk]. simpl.
  apply IH; [done|]. unfold GateXmlLoader.text_node.
  destruct (str_truthy (el_tail n)); simpl; by rewrite lookup_insert_ne.
Qed.

Lemma text_items_none (items : list element) (st : GateXmlLoader.textstate)
    (k : option string) :
  k ∉ (λ node, el_attrib node !! "id") <$> flat_map el_children items →
  GateXmlLoader.ts_node2offset st !! k = None →
  GateXmlLoader.ts_node2offset (fold_left GateXmlLoader.text_item items st) !! k = None.
Proof.
  revert st. induction items as [|i items0 IH]; intros st Hk Hst; [done|].
  simpl in Hk. rewrite fmap_app, elem_of_app in Hk. simpl.
  apply IH; [tauto|]. unfold GateXmlLoader.text_item.
  apply text_nodes_none; [tauto|]. by destruct (str_truthy (el_text i)).
Qed.

Lemma annotations_of_raise (node2offset : gmap (option string) nat)
    (annots : list element) (ann : element) (node : string) :
  ann ∈ annots →
  (el_attrib ann !! "StartNode" = Some node ∨ el_attrib ann !! "EndNode" = Some node) →
  node2offset !! Some node = None →
  ∀ acc, raises (GateXmlLoader.annotations_of py_int py_float ignore_unknown_types
                   node2offset annots acc).
Proof.
  intros Hin Hnode Hnone. induction annots as [|a annots IH]; intros acc.
  - by apply elem_of_nil in Hin.
  - simpl. destruct (GateXmlLoader.annotation_of _ _ _ _ acc a) as [acc'|] eqn:Hone;
      [|done]. simpl.
    apply elem_of_cons in Hin as [->|Hin]; [|by apply IH].
    exfalso. revert Hone. unfold GateXmlLoader.annotation_of. destruct acc as [anns top].
    unfold attrib_getitem.
    destruct (el_attrib a !! "Id"); [|done]. simpl.
    destruct (py_int _); [|done]. simpl.
    destruct (el_attrib a !! "Type"); [|done]. simpl.
    destruct (el_attrib a !! "StartNode") as [sn|] eqn:Hs; [|done]. simpl.
    destruct (el_attrib a !! "EndNode") as [en|] eqn:He; [|done]. simpl.
    destruct Hnode as [[= ->]|[= ->]]; rewrite Hnone; [done|].
    by destruct (node2offset !! Some sn).
Qed.

(** X27: an annotation that starts or ends at a node which is not in the
    text makes the GATE XML loader raise; no document is built. *)
Theorem xml_dangling_node_raises (root annset ann : element) (node : string) :
  annset ∈ findall "AnnotationSet" root →
  ann ∈ findall "Annotation" annset →
  (el_attrib ann !! "StartNode" = Some node ∨ el_attrib ann !! "EndNode" = Some node) →
  Some node ∉ node_ids root →
  raises (GateXmlLoader.docmap_of py_int py_float ignore_unknown_types root).
Proof.
  intros Hset Hann Hnode Hid. unfold GateXmlLoader.docmap_of.
  destruct (negb _); [done|]. destruct (negb _); [done|].
  destruct (GateXmlLoader.parsefeatures _ _ _ _) as [docfeatures|]; [|done]. simpl.
  set (st := fold_left GateXmlLoader.text_item _ _).
  assert (Hnone : GateXmlLoader.ts_node2offset st !! Some node = None).
  { apply text_items_none; [exact Hid | apply lookup_empty]. }
  assert (Hraise : ∀ sets, raises (GateXmlLoader.annsets_of py_int py_float
            ignore_unknown_types (GateXmlLoader.ts_node2offset st)
            (findall "AnnotationSet" root) sets)).
  { induction (findall "AnnotationSet" root) as [|s sets' IH]; intros sets.
    - by apply elem_of_nil in Hset.
    - simpl. destruct (GateXmlLoader.annset_of _ _ _ _ sets s) as [sets1|] eqn:Hone;
        [|done]. simpl.
      apply elem_of_cons in Hset as [->|Hset]; [|by apply IH].
      exfalso. revert Hone. unfold GateXmlLoader.annset_of.
      pose proof (annotations_of_raise _ _ ann node Hann Hnode Hnone ([], 0)) as Hr.
      by destruct (GateXmlLoader.annotations_of _ _ _ _ _ _). }
  specialize (Hraise []). by destruct (GateXmlLoader.annsets_of _ _ _ _ _ _).
Qed.

Lemma parsefeatures_loop_app (feats feats' : list element) (features : pydict value) :
  GateXmlLoader.parsefeatures_loop py_int py_float ignore_unknown_types
    (feats ++ feats') features
  = GateXmlLoader.parsefeatures_loop py_int py_float ignore_unknown_types feats features
    ≫= GateXmlLoader.parsefeatures_loop py_int py_float ignore_unknown_types feats'.
Proof.
  revert features. induction feats as [|feat feats IH]; intros features; [done|].
  simpl.
  destruct (GateXmlLoader.feature_children _ _ _ _ _) as [[name value]|]; [|done].
  simpl. apply IH.
Qed.

(** X28: a feature of the class [java.lang.Boolean] gets the truth value of
    its text as a string, not its meaning: every non-empty text, ["false"]
    too, gives [True]; an empty or missing text gives [False].  Coming after
    other features, it is stored under its name in what they gave, in the
    place of an earlier feature of that name. *)
Theorem xml_boolean_is_truthiness (feats : list element) (name : string)
    (text : option string) :
  GateXmlLoader.parsefeatures py_int py_float ignore_unknown_types
    (feats ++ [feature_element name "java.lang.Boolean" text])
  = features ← GateXmlLoader.parsefeatures py_int py_float ignore_unknown_types feats;
    Ok (dict_store (KStr name) (VStr name) (VBool (str_truthy text)) features).
Proof.
  unfold GateXmlLoader.parsefeatures. rewrite parsefeatures_loop_app.
  destruct (GateXmlLoader.parsefeatures_loop _ _ _ feats []) as [features|e]; [|done].
  reflexivity.
Qed.

End Gate_xml.

(** X29: a feature value of a class that the loader does not convert makes
    [parsefeatures] raise, unless unknown types are to be ignored; then the
    feature is dropped and the features after it are read as if it were not
    there. *)
Theorem xml_unknown_value_class (py_int : string → result Z)
    (py_float : string → result value) (name cls : string) (text : option string) :
  cls ∉ known_value_classes →
  GateXmlLoader.parsefeatures py_int py_float false [feature_element name cls text]
  = Raise (Exception ("Odd Feature Value type: " +:+ cls))
  ∧ ∀ feats,
      GateXmlLoader.parsefeatures py_int py_float true
        (feature_element name cls text :: feats)
      = GateXmlLoader.parsefeatures py_int py_float true feats.
Proof.
  intros Hcls. unfold known_value_classes in Hcls.
  rewrite !not_elem_of_cons in Hcls. destruct Hcls as (H1 & H2 & H3 & H4 & H5 & _).
  assert (Hvalue : ∀ ignore nv,
    GateXmlLoader.feature_child py_int py_float ignore nv
      (Element "Value" {["className" := cls]} text [] None)
    = if ignore then Ok nv
      else Raise (Exception ("Odd Feature Value type: " +:+ cls))).
  { intros ignore [n v]. unfold GateXmlLoader.feature_child.
    cbn [el_tag el_attrib el_text]. rewrite lookup_singleton_eq.
    rewrite (bool_decide_eq_false_2 ("Value" = "Name")) by done.
    rewrite (bool_decide_eq_true_2 ("Value" = "Value")) by done.
    rewrite !bool_decide_eq_false_2 by congruence. done. }
  assert (Hname : ∀ ignore n,
    GateXmlLoader.feature_child py_int py_float ignore (None, None)
      (Element "Name" {["className" := "java.lang.String"]} (Some n) [] None)
    = Ok (Some n, None)) by (intros; reflexivity).
  unfold GateXmlLoader.parsefeatures, feature_element.
  cbn [GateXmlLoader.parsefeatures_loop el_children GateXmlLoader.feature_children].
  rewrite !Hname. change (Ok ?x ≫= ?f) with (f x). cbv beta.
  rewrite !Hvalue. split; [done|]. intros feats. reflexivity.
Qed.

Lemma xml_offsets_within_text_witness :
  (xa_start (mkXmlAnnotation 1 "T" 1 3 None)
   ≤ String.length (dm_text sample_gate_docmap))%nat
  ∧ (xa_end (mkXmlAnnotation 1 "T" 1 3 None)
     ≤ String.length (dm_text sample_gate_docmap))%nat.
Proof.
  apply (xml_offsets_within_text (λ _, Ok 1) (λ _, Raise ValueError) false
           sample_gate_document sample_gate_docmap)
    with (ks := (VStr "", mkXmlAnnset "" [mkXmlAnnotation 1 "T" 1 3 None] 2)).
  - reflexivity.
  - simpl. constructor.
  - simpl. constructor.
Defined.

Lemma xml_next_annid_above_ids_witness :
  1 ≤ xs_next_annid (mkXmlAnnset "" [mkXmlAnnotation 1 "T" 1 3 None] 2)
  ∧ ∀ a, a ∈ xs_annotations (mkXmlAnnset "" [mkXmlAnnotation 1 "T" 1 3 None] 2) →
      xa_id a < xs_next_annid (mkXmlAnnset "" [mkXmlAnnotation 1 "T" 1 3 None] 2).
Proof.
  apply (xml_next_annid_above_ids (λ _, Ok 1) (λ _, Raise ValueError) false
           sample_gate_document sample_gate_docmap)
    with (ks := (VStr "", mkXmlAnnset "" [mkXmlAnnotation 1 "T" 1 3 None] 2)).
  - reflexivity.
  - simpl. constructor.
Defined.

Lemma xml_dangling_node_raises_witness :
  raises (GateXmlLoader.docmap_of (λ _, Ok 1) (λ _, Raise ValueError) false
            dangling_gate_document).
Proof.
  apply (xml_dangling_node_raises (λ _, Ok 1) (λ _, Raise ValueError) false
           dangling_gate_document dangling_annset dangling_annotation "2").
  - vm_compute. constructor.
  - vm_compute. constructor.
  - right. reflexivity.
  - apply (bool_decide_unpack _). by vm_compute.
Defined.

Lemma xml_unknown_value_class_witness :
  GateXmlLoader.parsefeatures (λ _, Ok 1) (λ _, Raise ValueError) false
    [feature_element "when" "java.util.Date" (Some "today")]
  = Raise (Exception "Odd Feature Value type: java.util.Date")
  ∧ ∀ feats,
      GateXmlLoader.parsefeatures (λ _, Ok 1) (λ _, Raise ValueError) true
        (feature_element "when" "java.util.Date" (Some "today") :: feats)
      = GateXmlLoader.parsefeatures (λ _, Ok 1) (λ _, Raise ValueError) true feats.
Proof.
  apply (xml_unknown_value_class (λ _, Ok 1) (λ _, Raise ValueError)
           "when" "java.util.Date" (Some "today")).
  apply (bool_decide_unpack _). by vm_compute.
Defined.
